(** * hntui: the view-state machine and the viewport windows of [main.go]

    A shallow embedding of the Bubble Tea program in [src/main.go]
    (the version with comments and paging, lines 268 to 663 of the
    file): the [model] record, the
    messages, [Update], the window arithmetic of [View], and the two fetch
    commands [fetchTopStories] and [fetchComments] run against an explicit
    description of what the network answers, and the command line
    [openURL] builds. The first version of the program (lines 1 to 267)
    is in the module [V1].

    Go's [int] is the 64-bit signed integer: it is a [Z] here and every
    [+], [-], [*] and [/] of the source goes through [wrap64]. *)

From Stdlib Require Import ZArith String List Bool Lia.
From stdpp Require Import base numbers option list relations.

Local Open Scope Z_scope.

(** ** Go's [int] *)

Module Int64.

Definition minInt64 : Z := - 2 ^ 63.
Definition maxInt64 : Z := 2 ^ 63 - 1.

  (** Two's complement wrap-around of an exact result. *)
Definition wrap64 (x : Z) : Z := (x + 2 ^ 63) mod 2 ^ 64 - 2 ^ 63.

Definition add64 (a b : Z) : Z := wrap64 (a + b).
Definition sub64 (a b : Z) : Z := wrap64 (a - b).
Definition mul64 (a b : Z) : Z := wrap64 (a * b).

  (** Go's [/] truncates toward zero. Every divisor in the source is a
      non-zero constant, so the division-by-zero panic cannot occur. *)
Definition quot64 (a b : Z) : Z := wrap64 (Z.quot a b).

  (** The values a Go [int] can hold. *)
Definition int64 (x : Z) : Prop := minInt64 <= x <= maxInt64.

End Int64.
Export Int64.

(** [len] of a slice or array, as a Go [int]. *)
Definition len {A : Type} (l : list A) : Z := Z.of_nat (length l).

(** The slice expression [s[lo:hi]]: it panics ([None]) unless
    [0 <= lo <= hi <= len s]. (Go allows [hi] up to the capacity; the
    source clamps [hi] to [len] before slicing, so the length is the bound
    that matters.) *)
Definition slice {A : Type} (s : list A) (lo hi : Z) : option (list A) :=
  if (0 <=? lo) && (lo <=? hi) && (hi <=? len s)
  then Some (take (Z.to_nat (hi - lo)) (drop (Z.to_nat lo) s))
  else None.

(** An array or slice index expression [a[i]]: [None] is the
    index-out-of-range panic. *)
Definition index {A : Type} (a : list A) (i : Z) : option A :=
  if (0 <=? i) && (i <? len a) then a !! Z.to_nat i else None.

(** ** Data model *)

Definition MAX : Z := 20.

Module Story.
Record t : Type := mk {
    ID : Z;
    By : string;
    Time : Z;
    Kids : list Z;
    URL : string;
    Score : Z;
    Title : string;
    Descendants : Z
  }.
  (** The zero value of the struct: what an unfilled slot of
      [[MAX]Story] holds. *)
Definition zero : t := mk 0 EmptyString 0 [] EmptyString 0 EmptyString 0.
End Story.

Module Comment.
Record t : Type := mk {
    ID : Z;
    By : string;
    Text : string;
    Time : Z
  }.
End Comment.

(** Go's [error] values, by their message. *)
Definition error : Type := string.

(** The messages [Update] dispatches on. [tea.KeyMsg] is kept as the
    string [msg.String()] yields; [otherMsg] stands for a message of any
    other dynamic type. *)
Inductive Msg : Type :=
| WindowSizeMsg (Width Height : Z)
| loadedStoriesMsg (loadedStories : list Story.t)
| loadedCommentsMsg (loadedComments : list Comment.t)
| errMsg (e : error)
| KeyMsg (key : string)
| otherMsg.

(** [stories] has the array type [[MAX]Story]: every array a message
    delivers has [MAX] slots ([wf_msg] below) and [len(m.stories)] is the
    constant [MAX] ([len_stories]). A nil [err] is [None]. *)
Record model : Type := mkModel {
  stories : list Story.t;
  comments : list Comment.t;
  commentHeights : list Z;
  cursor : Z;
  commentCursor : Z;
  loading : bool;
  commentsView : bool;
  err : option error;
  width : Z;
  height : Z
}.

Definition initialModel : model :=
  {| stories := replicate (Z.to_nat MAX) Story.zero;
     comments := [];
     commentHeights := [];
     cursor := 0;
     commentCursor := 0;
     loading := true;
     commentsView := false;
     err := None;
     width := 0;
     height := 0 |}.

(** The package-level [var page = 0]. *)
Definition initialPage : Z := 0.

(** Field assignments [m.f = v] on the receiver copy. *)
Definition set_size (w h : Z) (m : model) : model :=
  mkModel (stories m) (comments m) (commentHeights m) (cursor m)
          (commentCursor m) (loading m) (commentsView m) (err m) w h.
Definition set_stories (s : list Story.t) (m : model) : model :=
  mkModel s (comments m) (commentHeights m) (cursor m)
          (commentCursor m) (loading m) (commentsView m) (err m)
          (width m) (height m).
Definition set_comments (c : list Comment.t) (m : model) : model :=
  mkModel (stories m) c (commentHeights m) (cursor m)
          (commentCursor m) (loading m) (commentsView m) (err m)
          (width m) (height m).
Definition set_commentHeights (hs : list Z) (m : model) : model :=
  mkModel (stories m) (comments m) hs (cursor m)
          (commentCursor m) (loading m) (commentsView m) (err m)
          (width m) (height m).
Definition set_cursor (c : Z) (m : model) : model :=
  mkModel (stories m) (comments m) (commentHeights m) c
          (commentCursor m) (loading m) (commentsView m) (err m)
          (width m) (height m).
Definition set_commentCursor (c : Z) (m : model) : model :=
  mkModel (stories m) (comments m) (commentHeights m) (cursor m)
          c (loading m) (commentsView m) (err m) (width m) (height m).
Definition set_loading (b : bool) (m : model) : model :=
  mkModel (stories m) (comments m) (commentHeights m) (cursor m)
          (commentCursor m) b (commentsView m) (err m) (width m) (height m).
Definition set_commentsView (b : bool) (m : model) : model :=
  mkModel (stories m) (comments m) (commentHeights m) (cursor m)
          (commentCursor m) (loading m) b (err m) (width m) (height m).
Definition set_err (e : option error) (m : model) : model :=
  mkModel (stories m) (comments m) (commentHeights m) (cursor m)
          (commentCursor m) (loading m) (commentsView m) e
          (width m) (height m).

(** The commands [Update] returns. [fetchCommentsCmd m] is the closure
    [func() tea.Msg { return fetchComments(m.stories[m.cursor]) }], which
    captures the receiver copy [m] as it is when [Update] returns. *)
Inductive Cmd : Type :=
| nilCmd
| Quit
| fetchTopStoriesCmd
| fetchCommentsCmd (m : model).

(** [case "a", "b":] of the key switch. *)
Definition isKey (key : string) (names : list string) : bool :=
  existsb (String.eqb key) names.

(** [len(m.stories)]: the length of an array of type [[MAX]Story] is the
    constant [MAX], whatever the array holds. *)
Definition len_stories (a : list Story.t) : Z := MAX.

(** ** The first version of the program

    Lines 1 to 267 of [main.go]: the story list alone, with no comments
    view and no paging. Its [View] needs the window block and comes
    after it, as [View_v1]. *)

Module V1.

Record model : Type := mkModel {
  stories : list Story.t;
  cursor : Z;
  loading : bool;
  err : option error;
  width : Z;
  height : Z
}.

Definition initialModel : model :=
  {| stories := replicate (Z.to_nat MAX) Story.zero;
     cursor := 0;
     loading := true;
     err := None;
     width := 0;
     height := 0 |}.

Inductive Cmd : Type :=
| nilCmd
| Quit
| fetchTopStoriesCmd.

(** [func (m model) Update(msg tea.Msg) (tea.Model, tea.Cmd)], lines
    118-155. This version declares no [loadedCommentsMsg]: a message of
    that type is a message of some other type to it. [None] is the
    index panic of [m.stories[m.cursor]]. *)
Definition Update (m : model) (msg : Msg) : option (model * Cmd) :=
  match msg with
  | WindowSizeMsg Width Height =>
      Some (mkModel (stories m) (cursor m) (loading m) (err m) Width Height,
            nilCmd)
  | loadedStoriesMsg loadedStories =>
      Some (mkModel loadedStories (cursor m) false (err m)
                    (width m) (height m),
            nilCmd)
  | errMsg e =>
      Some (mkModel (stories m) (cursor m) false (Some e)
                    (width m) (height m),
            nilCmd)
  | KeyMsg key =>
      if isKey key ["ctrl+c"; "q"]%string then Some (m, Quit)
      else if isKey key ["up"; "k"]%string then
        if cursor m >? 0
        then Some (mkModel (stories m) (sub64 (cursor m) 1) (loading m)
                           (err m) (width m) (height m),
                   nilCmd)
        else Some (m, nilCmd)
      else if isKey key ["down"; "j"]%string then
        if cursor m <? sub64 (len_stories (stories m)) 1
        then Some (mkModel (stories m) (add64 (cursor m) 1) (loading m)
                           (err m) (width m) (height m),
                   nilCmd)
        else Some (m, nilCmd)
      else if isKey key ["r"]%string then
        Some (mkModel (stories m) (cursor m) true (err m)
                      (width m) (height m),
              fetchTopStoriesCmd)
      else if isKey key ["enter"]%string then
        _ ← index (stories m) (cursor m);
        Some (m, nilCmd)
      else Some (m, nilCmd)
  | _ => Some (m, nilCmd)
  end.

(** What [View] puts on the screen: the loading screen, the error
    screen, or the rows of the window. *)
Inductive Frame : Type :=
| LoadingFrame
| ErrorFrame (e : error)
| StoriesFrame (rows : list (bool * Story.t)).

(** [for i := range MAX { ... storyID[i] ... &stories[i] ... }], lines
    82-95, from index [i] on, [n] iterations left. [storyID[i]] panics
    past the end of the list. [unmarshal id] is [None] when the request
    or the read of the item fails, and otherwise what [json.Unmarshal]
    leaves in the zero-valued slot (this version decodes into the slot
    itself, so the slot keeps what was decoded even when an error is
    returned). *)
Fixpoint fetchLoop (storyID : list Z) (unmarshal : Z -> option Story.t)
  (i : Z) (n : nat) (stories : list Story.t) : option (list Story.t) :=
  match n with
  | O => Some stories
  | S n' =>
      id ← index storyID i;
      match unmarshal id with
      | None => fetchLoop storyID unmarshal (i + 1) n' stories
      | Some s =>
          if (0 <=? i) && (i <? len_stories stories)
          then fetchLoop storyID unmarshal (i + 1) n'
                         (<[Z.to_nat i := s]> stories)
          else None
      end
  end.

(** [func fetchTopStories() tea.Msg], lines 64-97. [None] is a panic. *)
Definition fetchTopStories (topstories : error + list Z)
  (unmarshal : Z -> option Story.t) : option Msg :=
  match topstories with
  | inl e => Some (errMsg e)
  | inr storyID =>
      let stories := replicate (Z.to_nat MAX) Story.zero in
      stories ← fetchLoop storyID unmarshal 0 (Z.to_nat MAX) stories;
      Some (loadedStoriesMsg stories)
  end.

(** [func openURL(url string) error], lines 218-246, on the operating
    system [GOOS]; [isWSL] is the answer of [isWSL()], which asks
    [uname -r]. *)
Definition openURL (GOOS : string) (isWSL : bool) (url : string)
  : string * list string :=
  let '(cmd, args) :=
    if String.eqb GOOS "windows" then ("cmd", ["/c"; "start"])%string
    else if String.eqb GOOS "darwin" then ("open"%string, [url])
    else if isWSL then ("cmd.exe"%string, ["/c"; "start"; url]%string)
    else ("xdg-open"%string, [url]) in
  let args :=
    if len args >? 1
    then take 1 args ++ ([EmptyString] ++ drop 1 args)
    else args in
  (cmd, args).

End V1.

(** What the first version sees of a model, a command and a frame of
    the second. *)
Definition forget (m : model) : V1.model :=
  V1.mkModel (stories m) (cursor m) (loading m) (err m) (width m) (height m).

Definition forgetCmd (c : Cmd) : V1.Cmd :=
  match c with
  | Quit => V1.Quit
  | fetchTopStoriesCmd => V1.fetchTopStoriesCmd
  | _ => V1.nilCmd
  end.

(** The keys and the message the first version has no case for. *)
Definition newInSecondVersion (msg : Msg) : bool :=
  match msg with
  | loadedCommentsMsg _ => true
  | KeyMsg key => isKey key ["c"; "pgup"; "l"; "pgdown"; "h"]%string
  | _ => false
  end.

(** ** The update function *)

Section Program.

  (** The three text functions [commentHeight] calls:
      [html2text.HTML2Text], [wrap.String] and [lipgloss.Height]. *)
Variable HTML2Text : string -> string.
Variable wrapString : string -> Z -> string.
Variable lipglossHeight : string -> Z.

  (** [func (m model) commentHeight(i int) int]; [None] is the
      index panic of [m.comments[i]]. *)
Definition commentHeight (m : model) (i : Z) : option Z :=
    c ← index (comments m) i;
    let text := HTML2Text (Comment.Text c) in
    let wrapped := wrapString text (width m) in
    Some (lipglossHeight wrapped).

  (** [for i := range m.comments { m.commentHeights[i] = m.commentHeight(i) }],
      from index [i] on, [n] iterations left. The store into
      [m.commentHeights[i]] panics out of range. *)
Fixpoint heightsLoop (m : model) (i : Z) (n : nat) : option model :=
    match n with
    | O => Some m
    | S n' =>
        h ← commentHeight m i;
        if (0 <=? i) && (i <? len (commentHeights m))
        then heightsLoop
               (set_commentHeights (<[Z.to_nat i := h]> (commentHeights m)) m)
               (i + 1) n'
        else None
    end.

  (** [func (m model) Update(msg tea.Msg) (tea.Model, tea.Cmd)] with the
      global [page] passed in and out. [None] is a run-time panic.
      [openURL] starts a browser process and its result is dropped; only
      the index expression of its argument is kept. *)
Definition Update (m : model) (msg : Msg) (page : Z)
    : option (model * Cmd * Z) :=
    match msg with
    | WindowSizeMsg Width Height =>
        Some (set_size Width Height m, nilCmd, page)
    | loadedStoriesMsg loadedStories =>
        let m := set_stories loadedStories m in
        let m := set_loading false m in
        Some (m, nilCmd, page)
    | loadedCommentsMsg loadedComments =>
        let m := set_comments loadedComments m in
        let m := set_loading false m in
        let m := set_commentCursor 0 m in
        let m := set_commentHeights
                   (replicate (length (comments m)) 0) m in
        m ← heightsLoop m 0 (length (comments m));
        Some (m, nilCmd, page)
    | errMsg e =>
        let m := set_err (Some e) m in
        let m := set_loading false m in
        Some (m, nilCmd, page)
    | KeyMsg key =>
        if isKey key ["ctrl+c"; "q"]%string then Some (m, Quit, page)
        else if isKey key ["up"; "k"]%string then
          if commentsView m then
            if commentCursor m >? 0
            then Some (set_commentCursor (sub64 (commentCursor m) 1) m,
                       nilCmd, page)
            else Some (m, nilCmd, page)
          else if cursor m >? 0
          then Some (set_cursor (sub64 (cursor m) 1) m, nilCmd, page)
          else Some (m, nilCmd, page)
        else if isKey key ["down"; "j"]%string then
          if commentsView m then
            if commentCursor m <? sub64 (len (comments m)) 1
            then Some (set_commentCursor (add64 (commentCursor m) 1) m,
                       nilCmd, page)
            else Some (m, nilCmd, page)
          else if cursor m <? sub64 (len_stories (stories m)) 1
          then Some (set_cursor (add64 (cursor m) 1) m, nilCmd, page)
          else Some (m, nilCmd, page)
        else if isKey key ["r"]%string then
          let m := set_loading true m in
          Some (m, fetchTopStoriesCmd, page)
        else if isKey key ["c"]%string then
          if negb (commentsView m) then
            let m := set_commentsView true m in
            let m := set_loading true m in
            Some (m, fetchCommentsCmd m, page)
          else
            let m := set_commentsView false m in
            Some (m, nilCmd, page)
        else if isKey key ["pgup"; "l"]%string then
          let page := add64 page 1 in
          let m := set_loading true m in
          Some (m, fetchTopStoriesCmd, page)
        else if isKey key ["pgdown"; "h"]%string then
          let page := sub64 page 1 in
          let m := set_loading true m in
          Some (m, fetchTopStoriesCmd, page)
        else if isKey key ["enter"]%string then
          _ ← index (stories m) (cursor m);
          Some (m, nilCmd, page)
        else Some (m, nilCmd, page)
    | otherMsg => Some (m, nilCmd, page)
    end.

(** ** The windows of [View] *)

(** The block both windows share, lines 540-545 and 590-595 of
    [main.go], for a list of [n] items. *)
Definition centerWindow (n cursor maxVisible : Z) : Z * Z :=
  let visibleStart := Z.max (sub64 cursor (quot64 maxVisible 2)) 0 in
  let visibleEnd := add64 visibleStart maxVisible in
  if visibleEnd >? n
  then
    let visibleEnd := n in
    let visibleStart := Z.max (sub64 visibleEnd maxVisible) 0 in
    (visibleStart, visibleEnd)
  else (visibleStart, visibleEnd).

(** [(visibleStart, visibleEnd)] of the comments branch, for a terminal
    of [height] rows and [n = len(m.comments)]. *)
Definition commentWindow (height commentCursor n : Z) : Z * Z :=
  let visibleStart := 0 in
  let visibleEnd := n in
  if height >? 0 then
    let maxVisible := quot64 (sub64 height 2) 3 in
    if (maxVisible >? 0) && (maxVisible <? n)
    then centerWindow n commentCursor maxVisible
    else (visibleStart, visibleEnd)
  else (visibleStart, visibleEnd).

(** [(visibleStart, visibleEnd)] of the stories branch; [n] is
    [len(m.stories)]. *)
Definition storyWindow (height cursor n : Z) : Z * Z :=
  let visibleStart := 0 in
  let visibleEnd := n in
  if height >? 0 then
    let maxVisible := quot64 (sub64 height 5) 3 in
    if maxVisible <? n
    then centerWindow n cursor maxVisible
    else (visibleStart, visibleEnd)
  else (visibleStart, visibleEnd).

(** What [View] puts on the screen, styling and text wrapping left out:
    the error screen, or the loading banner and the rows of the window,
    each with its "selected" mark. *)
Inductive Frame : Type :=
| ErrorFrame (e : error)
| CommentsFrame (loadingBanner : bool) (rows : list (bool * Comment.t))
| StoriesFrame (loadingBanner : bool) (rows : list (bool * Story.t)).

(** [func (m model) View() string]; [None] is an index panic in one of
    the two row loops. *)
Definition View (m : model) : option Frame :=
  match err m with
  | Some e => Some (ErrorFrame e)
  | None =>
      if commentsView m then
        let '(visibleStart, visibleEnd) :=
          commentWindow (height m) (commentCursor m) (len (comments m)) in
        let stop := Z.min visibleEnd (len (comments m)) in
        rows ← mapM (fun i => c ← index (comments m) i;
                              Some (bool_decide (commentCursor m = i), c))
                    (seqZ visibleStart (stop - visibleStart));
        Some (CommentsFrame (loading m) rows)
      else
        let '(visibleStart, visibleEnd) :=
          storyWindow (height m) (cursor m) (len_stories (stories m)) in
        rows ← mapM (fun i => s ← index (stories m) i;
                              Some (bool_decide (cursor m = i), s))
                    (seqZ visibleStart (visibleEnd - visibleStart));
        Some (StoriesFrame (loading m) rows)
  end.

(** [func (m model) View() string] of the first version, lines
    157-214. Its window block, lines 169-182, is the one of the second
    version, [storyWindow]. *)
Definition View_v1 (m : V1.model) : option V1.Frame :=
  if V1.loading m then Some V1.LoadingFrame
  else
    match V1.err m with
    | Some e => Some (V1.ErrorFrame e)
    | None =>
        let '(visibleStart, visibleEnd) :=
          storyWindow (V1.height m) (V1.cursor m)
                      (len_stories (V1.stories m)) in
        rows ← mapM (fun i => s ← index (V1.stories m) i;
                              Some (bool_decide (V1.cursor m = i), s))
                    (seqZ visibleStart (visibleEnd - visibleStart));
        Some (V1.StoriesFrame rows)
    end.

(** What the first version sees of a frame of the second, which has
    no loading screen. *)
Definition forgetFrame (f : Frame) : V1.Frame :=
  match f with
  | ErrorFrame e => V1.ErrorFrame e
  | CommentsFrame _ _ => V1.StoriesFrame []
  | StoriesFrame _ rows => V1.StoriesFrame rows
  end.

(** ** The fetch commands *)

(** What the remote API answers while a command runs: the ranked id
    list (or the error of the request, the read or the decoding), and
    for each id the decoded item, [None] when the request, the read or
    the decoding of that item fails. *)
Record Network : Type := mkNetwork {
  topstories : error + list Z;
  item : Z -> option Story.t;
  kid : Z -> option Comment.t
}.

(** [for i, id := range storiesID[start:end] { ...; stories[i] = s }]
    from range index [i] on. A failed item is skipped ([continue]); a
    store outside the array panics. *)
Fixpoint storeStories (net : Network) (i : Z) (ids : list Z)
  (stories : list Story.t) : option (list Story.t) :=
  match ids with
  | [] => Some stories
  | id :: rest =>
      match item net id with
      | None => storeStories net (i + 1) rest stories
      | Some s =>
          if (0 <=? i) && (i <? len_stories stories)
          then storeStories net (i + 1) rest (<[Z.to_nat i := s]> stories)
          else None
      end
  end.

(** The tail of [fetchTopStories], lines 374-391, once [start], [end]
    and [page] are settled: the loop over [storiesID[start:end]] into a
    fresh [[MAX]Story] and the message returned. *)
Definition loadPage (net : Network) (storiesID : list Z)
  (start end_ page : Z) : option (Msg * Z) :=
  let stories := replicate (Z.to_nat MAX) Story.zero in
  ids ← slice storiesID start end_;
  stories ← storeStories net 0 ids stories;
  Some (loadedStoriesMsg stories, page).

(** [func fetchTopStories() tea.Msg], run against [net] with the global
    [page] passed in and out. [None] is a run-time panic. *)
Definition fetchTopStories (net : Network) (page : Z) : option (Msg * Z) :=
  match topstories net with
  | inl e => Some (errMsg e, page)
  | inr storiesID =>
      let start := Z.max 0 (mul64 page MAX) in
      let end_ := add64 start MAX in
      let '(page, start, end_) :=
        if start >=? len storiesID then
          let page := sub64 (quot64 (len storiesID) MAX) 1 in
          let start := mul64 page MAX in
          let end_ := add64 start MAX in
          (page, start, end_)
        else (page, start, end_) in
      let end_ := if end_ >? len storiesID then len storiesID else end_ in
      loadPage net storiesID start end_ page
  end.

(** [func fetchComments(story Story) tea.Msg]: the decoded kids in
    order, the failed ones skipped. *)
Definition fetchComments (net : Network) (story : Story.t) : Msg :=
  loadedCommentsMsg (omap (kid net) (Story.Kids story)).

(** Running the closure of [fetchCommentsCmd m]. *)
Definition runFetchComments (net : Network) (m : model) : option Msg :=
  story ← index (stories m) (cursor m);
  Some (fetchComments net story).

(** ** The machine as a transition system *)

(** What the Go types guarantee about a message: a [[MAX]Story] array
    has [MAX] slots, a slice has a length that fits an [int], and the
    terminal size is a pair of [int]s. *)
Definition wf_msg (msg : Msg) : Prop :=
  match msg with
  | WindowSizeMsg Width Height => int64 Width /\ int64 Height
  | loadedStoriesMsg loadedStories => len loadedStories = MAX
  | loadedCommentsMsg loadedComments => len loadedComments <= maxInt64
  | _ => True
  end.

(** The program state: the model Bubble Tea holds and the global
    [page]. *)
Record World : Type := mkWorld { mdl : model; page : Z }.

Definition initialWorld : World := mkWorld initialModel initialPage.

(** One step: Bubble Tea delivers a message to [Update], or a
    [fetchTopStories] command runs and writes [page]. Messages are not
    tied to the commands that produce them: any well-formed message may
    arrive at any time. *)
Inductive step : World -> World -> Prop :=
| step_update w msg m' c p' :
    wf_msg msg ->
    Update (mdl w) msg (page w) = Some (m', c, p') ->
    step w (mkWorld m' p')
| step_fetch w net msg p' :
    fetchTopStories net (page w) = Some (msg, p') ->
    step w (mkWorld (mdl w) p').

Definition reachable (w : World) : Prop := rtc step initialWorld w.

(** The bounds the two cursors keep: the story cursor inside the
    [MAX] slots, the comment cursor inside the comments list, or at 0
    when that list is empty. *)
Definition cursorsInBounds (m : model) : Prop :=
  0 <= cursor m < MAX /\
  0 <= commentCursor m /\
  (commentCursor m < len (comments m) \/
   (comments m = [] /\ commentCursor m = 0)) /\
  len (comments m) <= maxInt64.

(** The height [Update] stores for a comment when the terminal is
    [w] columns wide. *)
Definition heightOf (w : Z) (c : Comment.t) : Z :=
  lipglossHeight (wrapString (HTML2Text (Comment.Text c)) w).

(** ** Sample inputs *)

(** Text functions that leave the text alone and count one line. *)
Definition plainText (s : string) : string := s.
Definition noWrap (s : string) (w : Z) : string := s.
Definition oneLine (s : string) : Z := 1.

Definition sampleStory (i : Z) : Story.t :=
  Story.mk i "pg" 0 [100 * i + 1; 100 * i + 2] "https://example.com" 1
           "title" 2.

Definition sampleComment (i : Z) : Comment.t :=
  Comment.mk i "dang" "text" 0.

(** A network whose ranked list is [1; ...; n] and where every item
    decodes. *)
Definition sampleNet (n : Z) : Network :=
  mkNetwork (inr (seqZ 1 n))
            (fun i => Some (sampleStory i))
            (fun i => Some (sampleComment i)).

(** The model after the first page of [sampleNet] arrived. *)
Definition loadedModel : model :=
  set_loading false
    (set_stories (sampleStory <$> seqZ 1 MAX) initialModel).

(** [loadedModel] in the comments view, showing the thread of story 1. *)
Definition threadModel : model :=
  set_commentsView true
    (set_commentHeights [1; 1]
       (set_comments [sampleComment 101; sampleComment 102] loadedModel)).

(** [loadedModel] on the error screen after a failed fetch. *)
Definition failedModel : model :=
  set_err (Some "timeout"%string) loadedModel.

(** ** Key sequences, well-formed models and the browser command *)

(** [n] deliveries of the key [key] in a row, with no other message in
    between; the commands returned on the way are dropped. *)
Fixpoint presses (key : string) (n : nat) (m : model) (page : Z)
  : option (model * Z) :=
  match n with
  | O => Some (m, page)
  | S n' =>
      r ← Update m (KeyMsg key) page;
      presses key n' r.1.1 r.2
  end.

(** What the Go types guarantee about a model, and what [Update] keeps
    besides: the [[MAX]Story] array has [MAX] slots, the terminal size
    is a pair of [int]s, and there is one stored height per comment. *)
Definition wellFormed (m : model) : Prop :=
  len (stories m) = MAX /\
  length (commentHeights m) = length (comments m) /\
  int64 (width m) /\ int64 (height m).

(** What a slot of the page holds for the id [id]: the decoded story, or
    the zero value when the item failed. *)
Definition slotOf (net : Network) (id : Z) : Story.t :=
  default Story.zero (item net id).

(** The thirteen key names the switch of [Update] has a case for. *)
Definition boundKeys : list string :=
  ["ctrl+c"; "q"; "up"; "k"; "down"; "j"; "r"; "c"; "pgup"; "l";
   "pgdown"; "h"; "enter"]%string.

(** [func openURL(url string) error], lines 632-651, on the operating
    system [GOOS]: the program and the arguments handed to
    [exec.Command]. Starting the process is outside the model.
    [append(args[:1], append([]string{""}, args[1:]...)...)] reads
    [args[1:]] into a fresh slice before [args[:1]] is extended, so it
    is [args[0]], the empty string, then the rest. *)
Definition openURL (GOOS url : string) : string * list string :=
  let '(cmd, args) :=
    if String.eqb GOOS "windows" then ("cmd", ["/c"; "start"])%string
    else if String.eqb GOOS "darwin" then ("open"%string, [url])
    else ("xdg-open"%string, [url]) in
  let args :=
    if len args >? 1
    then take 1 args ++ ([EmptyString] ++ drop 1 args)
    else args in
  (cmd, args).

(** ** Arithmetic that stays inside [int] *)

Lemma wrap64_small x : int64 x -> wrap64 x = x.
Proof.
  unfold int64, minInt64, maxInt64, wrap64. intros Hx.
  rewrite Z.mod_small; lia.
Qed.

Lemma wrap64_range x : int64 (wrap64 x).
Proof.
  unfold int64, minInt64, maxInt64, wrap64.
  pose proof (Z.mod_pos_bound (x + 2 ^ 63) (2 ^ 64)). lia.
Qed.

Ltac int64_range := unfold int64, minInt64, maxInt64, MAX in *; lia.

(** Drops every [wrap64] whose argument is shown to fit. *)
Ltac unwrap :=
  unfold add64, sub64, mul64;
  repeat match goal with
         | |- context [wrap64 ?x] => rewrite (wrap64_small x) by int64_range
         end.

Lemma quot64_exact a b : int64 a -> 0 < b -> quot64 a b = a ÷ b.
Proof.
  clear wrapString.
  intros Ha Hb. unfold quot64. apply wrap64_small.
  unfold int64, minInt64, maxInt64 in *.
  Z.quot_rem_to_equations. nia.
Qed.

Lemma len_nonneg {A : Type} (l : list A) : 0 <= len l.
Proof. unfold len. lia. Qed.

Lemma len_nil_inv {A : Type} (l : list A) : len l <= 0 -> l = [].
Proof. destruct l; [done | unfold len; simpl; lia]. Qed.

(** ** The windows *)

(** A window of [maxVisible >= 1] rows over a longer list holds
    exactly [maxVisible] items, among them the cursor's. *)
Lemma centerWindow_contains_cursor n cursor maxVisible :
  1 <= maxVisible < n -> n <= 2 ^ 62 -> 0 <= cursor < n ->
  0 <= (centerWindow n cursor maxVisible).1 <= cursor /\
  cursor < (centerWindow n cursor maxVisible).2 <= n /\
  (centerWindow n cursor maxVisible).2 - (centerWindow n cursor maxVisible).1
  = maxVisible.
Proof.
  clear wrapString.
  intros Hmv Hn Hc. unfold centerWindow.
  rewrite (quot64_exact maxVisible 2) by int64_range.
  assert (Hq : 0 <= maxVisible ÷ 2 /\ 2 * (maxVisible ÷ 2) <= maxVisible)
    by (Z.quot_rem_to_equations; lia).
  revert Hq. generalize (maxVisible ÷ 2). intros q Hq.
  unwrap. destruct (Z.gtb_spec (Z.max (cursor - q) 0 + maxVisible) n);
    simpl; lia.
Qed.

(** The comments window holds the comment cursor at every terminal
    height. *)
Lemma commentWindow_contains_cursor height commentCursor n :
  int64 height -> 0 < n <= 2 ^ 62 -> 0 <= commentCursor < n ->
  0 <= (commentWindow height commentCursor n).1 <= commentCursor /\
  commentCursor < (commentWindow height commentCursor n).2 <= n.
Proof.
  clear wrapString.
  intros Hh Hn Hc. unfold commentWindow.
  destruct (Z.gtb_spec height 0); [| simpl; lia].
  unfold sub64. rewrite (wrap64_small (height - 2)) by int64_range.
  rewrite quot64_exact by int64_range.
  destruct (Z.gtb_spec ((height - 2) ÷ 3) 0); simpl; [| lia].
  destruct (Z.ltb_spec ((height - 2) ÷ 3) n); simpl; [| lia].
  pose proof (centerWindow_contains_cursor n commentCursor
                ((height - 2) ÷ 3)). lia.
Qed.

(** So does the stories window, on a terminal of 8 rows or more, or
    when the height is not known yet. *)
Lemma storyWindow_contains_cursor height cursor n :
  int64 height -> height <= 0 \/ 8 <= height ->
  0 < n <= 2 ^ 62 -> 0 <= cursor < n ->
  0 <= (storyWindow height cursor n).1 <= cursor /\
  cursor < (storyWindow height cursor n).2 <= n.
Proof.
  clear wrapString.
  intros Hh Hrows Hn Hc. unfold storyWindow.
  destruct (Z.gtb_spec height 0); [| simpl; lia].
  unfold sub64. rewrite (wrap64_small (height - 5)) by int64_range.
  rewrite quot64_exact by int64_range.
  assert (1 <= (height - 5) ÷ 3) by (Z.quot_rem_to_equations; lia).
  destruct (Z.ltb_spec ((height - 5) ÷ 3) n); simpl; [| lia].
  pose proof (centerWindow_contains_cursor n cursor ((height - 5) ÷ 3)).
  lia.
Qed.

(** On a terminal of 3 to 7 rows the stories window is empty, and on
    one of 1 or 2 rows its end lies before its start. *)
Lemma storyWindow_short_terminal height cursor n :
  0 < n <= 2 ^ 62 -> 0 <= cursor < n ->
  (3 <= height <= 7 -> storyWindow height cursor n = (cursor, cursor)) /\
  (1 <= height <= 2 -> storyWindow height cursor n = (cursor, cursor - 1)).
Proof.
  clear wrapString.
  intros Hn Hc.
  assert (Hcases : forall mv, mv = 0 \/ mv = -1 ->
            centerWindow n cursor mv = (cursor, cursor + mv)).
  { intros mv [-> | ->]; unfold centerWindow;
      change (quot64 0 2) with 0; change (quot64 (-1) 2) with 0; unwrap.
    - rewrite Z.max_l by lia.
      destruct (Z.gtb_spec (cursor - 0 + 0) n); [lia | f_equal; lia].
    - rewrite Z.max_l by lia.
      destruct (Z.gtb_spec (cursor - 0 + -1) n); [lia | f_equal; lia]. }
  split; intros Hh; unfold storyWindow;
    (destruct (Z.gtb_spec height 0); [| lia]);
    unfold sub64; rewrite (wrap64_small (height - 5)) by int64_range;
    rewrite quot64_exact by int64_range.
  - assert (Hmv : (height - 5) ÷ 3 = 0) by (Z.quot_rem_to_equations; lia).
    rewrite Hmv. destruct (Z.ltb_spec 0 n); [| lia].
    rewrite Hcases by auto. f_equal. lia.
  - assert (Hmv : (height - 5) ÷ 3 = -1) by (Z.quot_rem_to_equations; lia).
    rewrite Hmv. destruct (Z.ltb_spec (-1) n); [| lia].
    rewrite Hcases by auto. f_equal.
Qed.

(** C1 (the code departs from the claim). The claim: for every cursor
    of the story list and every terminal height the stories window
    holds the cursor and is never empty. On a terminal of 5 rows
    [maxVisible] is 0 and the window of the 20 stories is the empty
    [(0, 0)], so [View] draws no story row; on a terminal of 1 row the
    window is [(0, -1)]. The comments window has the guard
    [maxVisible > 0] for this and shows the whole list. *)
Theorem story_window_empty_on_short_terminal :
  storyWindow 5 0 MAX = (0, 0) /\
  storyWindow 1 0 MAX = (0, -1) /\
  View (set_size 80 5 loadedModel) = Some (StoriesFrame false []) /\
  commentWindow 4 0 MAX = (0, MAX).
Proof. repeat split; vm_compute; reflexivity. Qed.

(** C2 (as amended). With 20 items and [maxVisible = 9] the window is
    [(0, 9)] at cursor 0, [(11, 20)] at cursor 19 and [(6, 15)] at
    cursor 10, by the center-then-clamp rule; this is what the stories
    view shows on a terminal of 32 rows and the comments view on one of
    29 rows. *)
Theorem window_of_nine_in_twenty :
  centerWindow 20 0 9 = (0, 9) /\
  centerWindow 20 19 9 = (11, 20) /\
  centerWindow 20 10 9 = (6, 15) /\
  (storyWindow 32 0 MAX, storyWindow 32 19 MAX, storyWindow 32 10 MAX)
  = ((0, 9), (11, 20), (6, 15)) /\
  (commentWindow 29 0 20, commentWindow 29 19 20, commentWindow 29 10 20)
  = ((0, 9), (11, 20), (6, 15)).
Proof. repeat split; vm_compute; reflexivity. Qed.

(** ** The comments completion *)

(** The loop over [m.comments] fills the heights from index [k] on. *)
Lemma heightsLoop_spec n : forall m k,
  length (commentHeights m) = length (comments m) ->
  (k + n)%nat = length (comments m) ->
  heightsLoop m (Z.of_nat k) n =
  Some (set_commentHeights
          (take k (commentHeights m)
             ++ (heightOf (width m) <$> drop k (comments m))) m).
Proof.
  induction n as [| n IH]; intros m k Hlen Hk; simpl.
  - rewrite drop_ge, take_ge by lia. rewrite app_nil_r. by destruct m.
  - destruct (lookup_lt_is_Some_2 (comments m) k) as [c Hc]; [lia |].
    unfold commentHeight, index, len.
    replace (0 <=? Z.of_nat k) with true by (symmetry; apply Z.leb_le; lia).
    replace (Z.of_nat k <? Z.of_nat (length (comments m))) with true
      by (symmetry; apply Z.ltb_lt; lia).
    replace (Z.of_nat k <? Z.of_nat (length (commentHeights m))) with true
      by (symmetry; apply Z.ltb_lt; lia).
    rewrite Nat2Z.id, Hc. simpl.
    replace (Z.of_nat k + 1) with (Z.of_nat (S k)) by lia.
    rewrite IH; simpl; [| by rewrite length_insert | lia].
    f_equal. unfold set_commentHeights; simpl. f_equal.
    rewrite (take_S_r _ _ (heightOf (width m) c))
      by (apply list_lookup_insert_eq; lia).
    rewrite take_insert. case_decide; [lia |].
    rewrite (drop_S _ _ _ Hc). rewrite fmap_cons, <- app_assoc. reflexivity.
Qed.

(** The whole [loadedCommentsMsg] case: it never panics, and writes
    four fields. *)
Lemma Update_loadedCommentsMsg m loadedComments page :
  Update m (loadedCommentsMsg loadedComments) page =
  Some (mkModel (stories m) loadedComments
                (heightOf (width m) <$> loadedComments)
                (cursor m) 0 false (commentsView m) (err m)
                (width m) (height m),
        nilCmd, page).
Proof.
  unfold Update. cbn [comments set_commentHeights set_commentCursor
                      set_loading set_comments].
  rewrite (heightsLoop_spec _ _ 0%nat); simpl;
    [done | by rewrite length_replicate | done].
Qed.

(** C5 (as amended). A comments completion carries no story id and is
    never discarded: whatever the state and whichever story the thread
    was fetched for, [Update] installs the delivered list, recomputes
    the heights, puts the comment cursor at 0 and clears [loading]; the
    stories, the story cursor, the view mode, the error, the terminal
    size and [page] stay as they were, and no command is returned. *)
Theorem comments_completion_always_applied
  (net : Network) (story : Story.t) (m : model) (page : Z) :
  Update m (fetchComments net story) page =
  Some (mkModel (stories m)
                (omap (kid net) (Story.Kids story))
                (heightOf (width m) <$> omap (kid net) (Story.Kids story))
                (cursor m) 0 false (commentsView m) (err m)
                (width m) (height m),
        nilCmd, page).
Proof. unfold fetchComments. apply Update_loadedCommentsMsg. Qed.

(** ** The cursors *)

Lemma initial_cursorsInBounds : cursorsInBounds initialModel.
Proof.
  unfold cursorsInBounds, len; simpl.
  repeat split; try int64_range. by right.
Qed.

(** No message takes a cursor out of its list. *)
Lemma Update_keeps_cursors m msg page m' c p' :
  wf_msg msg -> cursorsInBounds m ->
  Update m msg page = Some (m', c, p') -> cursorsInBounds m'.
Proof.
  intros Hwf (Hcur & Hcc & Hlist & Hlen) HU.
  destruct msg as [Width Height | loaded | loaded | e | key |].
  - simpl in HU. simplify_eq. unfold cursorsInBounds; simpl; tauto.
  - simpl in HU. simplify_eq. unfold cursorsInBounds; simpl; tauto.
  - rewrite Update_loadedCommentsMsg in HU. simplify_eq.
    simpl in Hwf. unfold cursorsInBounds; simpl.
    repeat split; try lia. destruct loaded; [by right | left].
    unfold len; simpl; lia.
  - simpl in HU. simplify_eq. unfold cursorsInBounds; simpl; tauto.
  - assert (Hlast : sub64 (len (comments m)) 1 = len (comments m) - 1).
    { pose proof (len_nonneg (comments m)). by unwrap. }
    assert (Hslots : sub64 (len_stories (stories m)) 1 = 19) by reflexivity.
    unfold Update in HU. rewrite Hlast, Hslots in HU.
    repeat case_match; simplify_option_eq;
      unfold cursorsInBounds; simpl;
      repeat match goal with
             | H : (_ >? _) = true |- _ => apply Z.gtb_lt in H
             | H : (_ <? _) = true |- _ => apply Z.ltb_lt in H
             end;
      unwrap; try (repeat split; first [done | int64_range]).
    all: repeat split; try int64_range.
    all: left; int64_range.
  - simpl in HU. simplify_eq. unfold cursorsInBounds; simpl; tauto.
Qed.

Lemma step_keeps_cursors w w' :
  cursorsInBounds (mdl w) -> step w w' -> cursorsInBounds (mdl w').
Proof.
  intros Hinv Hstep. destruct Hstep as [w msg m' c p' Hwf HU | w net msg p' _].
  - simpl. eapply Update_keeps_cursors; eauto.
  - exact Hinv.
Qed.

(** C3 (as amended). In every reachable state, and after every further
    step from it (a key, a resize, a fetch completion that replaces the
    comments by a list of another length), the story cursor is in
    [[0, 20)] and the comment cursor is in [[0, len(comments))] when the
    comments list is not empty, and is 0 when it is empty. *)
Theorem cursors_stay_in_bounds (w : World) :
  reachable w ->
  cursorsInBounds (mdl w) /\
  (forall w', step w w' -> cursorsInBounds (mdl w')).
Proof.
  intros Hreach.
  assert (Hinv : cursorsInBounds (mdl w)).
  { revert w Hreach.
    apply (rtc_ind_r (fun w => cursorsInBounds (mdl w)) initialWorld).
    - apply initial_cursorsInBounds.
    - intros w1 w2 _ Hstep IH. eapply step_keeps_cursors; eauto. }
  split; [exact Hinv |].
  intros w' Hstep. eapply step_keeps_cursors; eauto.
Qed.

(** ** Stories completions and the view toggle *)

(** The [loadedStoriesMsg] and [errMsg] cases. *)
Lemma Update_loadedStoriesMsg m loadedStories page :
  Update m (loadedStoriesMsg loadedStories) page =
  Some (mkModel loadedStories (comments m) (commentHeights m) (cursor m)
                (commentCursor m) false (commentsView m) (err m)
                (width m) (height m),
        nilCmd, page).
Proof. reflexivity. Qed.

Lemma Update_errMsg m e page :
  Update m (errMsg e) page =
  Some (mkModel (stories m) (comments m) (commentHeights m) (cursor m)
                (commentCursor m) false (commentsView m) (Some e)
                (width m) (height m),
        nilCmd, page).
Proof. reflexivity. Qed.

(** C6 (the code departs from the claim). The claim: a successful
    stories completion replaces the slots, clears the stored error and
    clears [loading]; a failed one stores the error, clears [loading]
    and keeps the slots. The code does all of it except clearing the
    error: a stories completion writes [stories] and [loading] only, so
    from [failedModel] the retry that succeeds leaves
    [err = Some "timeout"] and [View] still draws the error screen. *)
Theorem stories_completion_keeps_error
  (m : model) (loadedStories : list Story.t) (e : error) (page : Z) :
  Update m (loadedStoriesMsg loadedStories) page =
  Some (mkModel loadedStories (comments m) (commentHeights m) (cursor m)
                (commentCursor m) false (commentsView m) (err m)
                (width m) (height m),
        nilCmd, page) /\
  Update m (errMsg e) page =
  Some (mkModel (stories m) (comments m) (commentHeights m) (cursor m)
                (commentCursor m) false (commentsView m) (Some e)
                (width m) (height m),
        nilCmd, page) /\
  (exists m',
      Update failedModel (loadedStoriesMsg (sampleStory <$> seqZ 21 MAX)) 0
      = Some (m', nilCmd, 0) /\
      stories m' = sampleStory <$> seqZ 21 MAX /\
      loading m' = false /\
      err m' = Some "timeout"%string /\
      View m' = Some (ErrorFrame "timeout"%string)).
Proof.
  split; [apply Update_loadedStoriesMsg |].
  split; [apply Update_errMsg |].
  eexists. split; [reflexivity |]. repeat split.
Qed.

(** C7. From a state in the stories view, [c] and then [c] again, with
    no message in between, ends in the stories view with the story
    cursor, the story slots and [page] of the start. *)
Theorem toggle_comments_round_trip (m : model) (page : Z) :
  commentsView m = false ->
  exists m1 c1 p1 m2 c2 p2,
    Update m (KeyMsg "c") page = Some (m1, c1, p1) /\
    commentsView m1 = true /\
    Update m1 (KeyMsg "c") p1 = Some (m2, c2, p2) /\
    commentsView m2 = false /\
    cursor m2 = cursor m /\
    p2 = page /\
    stories m2 = stories m.
Proof.
  intros Hview. unfold Update; simpl. rewrite Hview; simpl.
  do 6 eexists. split; [reflexivity |]. simpl. repeat split.
Qed.

(** C8 (as amended). [c] in the comments view returns to the stories
    view and returns no command; the comments list, like every other
    field, is left as it is. *)
Theorem leave_comments_keeps_list (m : model) (page : Z) :
  commentsView m = true ->
  Update m (KeyMsg "c") page =
  Some (mkModel (stories m) (comments m) (commentHeights m) (cursor m)
                (commentCursor m) (loading m) false (err m)
                (width m) (height m),
        nilCmd, page).
Proof. intros Hview. unfold Update; simpl. by rewrite Hview. Qed.

(** C10. [r] in the comments view returns the stories fetch, never a
    comments fetch, and writes [loading = true] only; the stories
    completion that answers it then writes the delivered slots and
    [loading = false] only. The view mode, the comments and the comment
    cursor are the ones of the start, and [View] draws the same thread
    as before the refresh, over the replaced story list. *)
Theorem refresh_in_comments_view
  (m : model) (loadedStories : list Story.t) (page : Z) :
  commentsView m = true ->
  exists m1 m2,
    Update m (KeyMsg "r") page = Some (m1, fetchTopStoriesCmd, page) /\
    (forall captured, fetchTopStoriesCmd <> fetchCommentsCmd captured) /\
    m1 = mkModel (stories m) (comments m) (commentHeights m) (cursor m)
                 (commentCursor m) true (commentsView m) (err m)
                 (width m) (height m) /\
    Update m1 (loadedStoriesMsg loadedStories) page
    = Some (m2, nilCmd, page) /\
    m2 = mkModel loadedStories (comments m) (commentHeights m) (cursor m)
                 (commentCursor m) false (commentsView m) (err m)
                 (width m) (height m) /\
    stories m2 = loadedStories /\
    loading m1 = true /\
    loading m2 = false /\
    commentsView m1 = true /\
    commentsView m2 = true /\
    comments m1 = comments m /\
    comments m2 = comments m /\
    commentCursor m1 = commentCursor m /\
    commentCursor m2 = commentCursor m /\
    View m2
    = View (mkModel (stories m) (comments m) (commentHeights m) (cursor m)
                    (commentCursor m) false (commentsView m) (err m)
                    (width m) (height m)).
Proof.
  intros Hview. do 2 eexists.
  split; [reflexivity |]. split; [discriminate |].
  split; [reflexivity |]. split; [reflexivity |]. split; [reflexivity |].
  repeat split; try assumption.
  unfold View; simpl. by rewrite Hview.
Qed.

(** ** Paging *)

Lemma slice_in_range {A : Type} (s : list A) lo hi :
  0 <= lo <= hi -> hi <= len s ->
  slice s lo hi = Some (take (Z.to_nat (hi - lo)) (drop (Z.to_nat lo) s)).
Proof.
  intros Hlo Hhi. unfold slice.
  replace (0 <=? lo) with true by (symmetry; apply Z.leb_le; lia).
  replace (lo <=? hi) with true by (symmetry; apply Z.leb_le; lia).
  replace (hi <=? len s) with true by (symmetry; apply Z.leb_le; lia).
  reflexivity.
Qed.

Lemma slice_negative {A : Type} (s : list A) lo hi :
  lo < 0 -> slice s lo hi = None.
Proof.
  intros Hlo. unfold slice.
  replace (0 <=? lo) with false by (symmetry; apply Z.leb_gt; lia).
  reflexivity.
Qed.

(** The store loop does not panic on [MAX] ids or fewer. *)
Lemma storeStories_total net ids : forall i stories,
  0 <= i -> i + len ids <= MAX ->
  is_Some (storeStories net i ids stories).
Proof.
  induction ids as [| id rest IH]; intros i stories Hi Hfit; simpl.
  - by eexists.
  - assert (Hrest : i + 1 + len rest <= MAX)
      by (unfold len in *; simpl in Hfit; lia).
    assert (Hlt : i < MAX)
      by (unfold len in *; simpl in Hfit; lia).
    destruct (item net id); [| apply IH; lia].
    unfold len_stories.
    replace (0 <=? i) with true by (symmetry; apply Z.leb_le; lia).
    replace (i <? MAX) with true by (symmetry; apply Z.ltb_lt; lia).
    simpl. apply IH; lia.
Qed.

(** A slice of [MAX] ids or fewer inside the list loads, and what it
    loads does not depend on [page]. *)
Lemma loadPage_total net ids lo hi :
  0 <= lo <= hi -> hi <= len ids -> hi - lo <= MAX ->
  exists stories, forall page,
    loadPage net ids lo hi page = Some (loadedStoriesMsg stories, page).
Proof.
  intros Hlo Hhi Hfit. unfold loadPage.
  rewrite slice_in_range by lia. cbv zeta. cbn [mbind option_bind].
  destruct (storeStories_total net
              (take (Z.to_nat (hi - lo)) (drop (Z.to_nat lo) ids)) 0
              (replicate (Z.to_nat MAX) Story.zero)) as [stories Hs].
  - lia.
  - unfold len. rewrite length_take. lia.
  - rewrite Hs. cbn [mbind option_bind]. by eexists.
Qed.

(** A request at or past the end of the list is served as the page
    [len / MAX - 1]. *)
Lemma fetchTopStories_past_end net ids page :
  topstories net = inr ids -> len ids <= maxInt64 ->
  len ids <= Z.max 0 (mul64 page MAX) ->
  fetchTopStories net page =
  loadPage net ids ((len ids ÷ MAX - 1) * MAX) ((len ids ÷ MAX - 1) * MAX + MAX)
           (len ids ÷ MAX - 1).
Proof.
  clear wrapString.
  intros Htop Hlen Hpast. unfold fetchTopStories. rewrite Htop. cbv zeta.
  replace (Z.max 0 (mul64 page MAX) >=? len ids) with true
    by (symmetry; apply Z.geb_le; lia).
  pose proof (len_nonneg ids) as Hnn.
  rewrite (quot64_exact (len ids) MAX) by int64_range.
  assert (Hq : MAX * (len ids ÷ MAX) <= len ids < MAX * (len ids ÷ MAX) + MAX)
    by (unfold MAX; Z.quot_rem_to_equations; lia).
  revert Hq. generalize (len ids ÷ MAX). intros q Hq.
  unwrap.
  destruct (Z.gtb_spec ((q - 1) * MAX + MAX) (len ids));
    [unfold MAX in *; lia | reflexivity].
Qed.

(** A request inside the list is served as asked. *)
Lemma fetchTopStories_in_range net ids page :
  topstories net = inr ids -> len ids + MAX <= maxInt64 ->
  0 <= page * MAX < len ids ->
  fetchTopStories net page =
  loadPage net ids (page * MAX) (Z.min (page * MAX + MAX) (len ids)) page.
Proof.
  intros Htop Hlen Hin. unfold fetchTopStories. rewrite Htop. cbv zeta.
  unwrap. rewrite Z.max_r by lia.
  rewrite Z.geb_leb.
  replace (len ids <=? page * MAX) with false
    by (symmetry; apply Z.leb_gt; lia).
  destruct (Z.gtb_spec (page * MAX + MAX) (len ids)).
  - by rewrite Z.min_r by lia.
  - by rewrite Z.min_l by lia.
Qed.

(** A negative request is served from the head of the list, and [page]
    is left negative. *)
Lemma fetchTopStories_negative net ids page :
  topstories net = inr ids -> 0 < len ids <= maxInt64 ->
  page < 0 -> minInt64 <= page * MAX ->
  fetchTopStories net page =
  loadPage net ids 0 (Z.min MAX (len ids)) page.
Proof.
  intros Htop Hlen Hneg Hfit. unfold fetchTopStories. rewrite Htop. cbv zeta.
  unwrap. rewrite Z.max_l by (unfold MAX; lia).
  rewrite Z.geb_leb.
  replace (len ids <=? 0) with false by (symmetry; apply Z.leb_gt; lia).
  unwrap. rewrite Z.add_0_l.
  destruct (Z.gtb_spec MAX (len ids)).
  - by rewrite Z.min_r by lia.
  - by rewrite Z.min_l by lia.
Qed.

(** The four page keys: [page] moves by one, wrapping like any Go
    [int], and nothing looks at the id list. *)
Lemma Update_next_page m page :
  Update m (KeyMsg "l") page
  = Some (set_loading true m, fetchTopStoriesCmd, add64 page 1) /\
  Update m (KeyMsg "pgup") page
  = Some (set_loading true m, fetchTopStoriesCmd, add64 page 1).
Proof. split; reflexivity. Qed.

Lemma Update_prev_page m page :
  Update m (KeyMsg "h") page
  = Some (set_loading true m, fetchTopStoriesCmd, sub64 page 1) /\
  Update m (KeyMsg "pgdown") page
  = Some (set_loading true m, fetchTopStoriesCmd, sub64 page 1).
Proof. split; reflexivity. Qed.

(** C4 (as amended). With at least one full page of ids, a fetch whose
    [start] (as the code computes it) is at or past the end of the list
    sets [page] to [q = len / 20 - 1] and loads the 20 ids of that
    page, the last full one, exactly as a fetch of page [q] does. When
    the list is [k >= 1] full pages long, the next-page key on the last
    page [k - 1] stores [k], and the fetch that follows loads page
    [k - 1] again and stores [k - 1]. *)
Theorem request_past_end_loads_last_full_page
  (net : Network) (ids : list Z) (m : model) (page q k : Z) :
  topstories net = inr ids ->
  MAX <= len ids -> len ids + MAX <= maxInt64 ->
  q = len ids ÷ MAX - 1 ->
  (len ids <= Z.max 0 (mul64 page MAX) ->
   0 <= q * MAX /\
   q * MAX + MAX <= len ids < q * MAX + MAX + MAX /\
   fetchTopStories net page = fetchTopStories net q /\
   exists pageIds stories,
     slice ids (q * MAX) (q * MAX + MAX) = Some pageIds /\
     len pageIds = MAX /\
     storeStories net 0 pageIds (replicate (Z.to_nat MAX) Story.zero)
     = Some stories /\
     fetchTopStories net page = Some (loadedStoriesMsg stories, q)) /\
  (len ids = MAX * k ->
   Update m (KeyMsg "l") (k - 1)
   = Some (set_loading true m, fetchTopStoriesCmd, k) /\
   fetchTopStories net k = fetchTopStories net (k - 1) /\
   exists stories,
     fetchTopStories net k = Some (loadedStoriesMsg stories, k - 1)).
Proof.
  intros Htop Hfull Hlen Hq.
  pose proof (len_nonneg ids) as Hnn.
  assert (Hdiv : MAX * (len ids ÷ MAX) <= len ids
                 < MAX * (len ids ÷ MAX) + MAX)
    by (unfold MAX; Z.quot_rem_to_equations; lia).
  assert (Hq0 : 0 <= q * MAX) by (unfold MAX in *; lia).
  assert (Hq1 : q * MAX + MAX <= len ids < q * MAX + MAX + MAX)
    by (unfold MAX in *; lia).
  assert (Hpast : forall p, len ids <= Z.max 0 (mul64 p MAX) ->
            fetchTopStories net p
            = loadPage net ids (q * MAX) (q * MAX + MAX) q).
  { intros p Hp. subst q.
    apply fetchTopStories_past_end; [assumption | int64_range | assumption]. }
  assert (Hself : fetchTopStories net q
                  = loadPage net ids (q * MAX) (q * MAX + MAX) q).
  { rewrite (fetchTopStories_in_range net ids q) by (auto; lia).
    by rewrite Z.min_l by lia. }
  split.
  - intros Hp. split; [exact Hq0 |]. split; [exact Hq1 |].
    split; [by rewrite Hself; apply Hpast |].
    rewrite (Hpast page Hp). unfold loadPage.
    rewrite slice_in_range by lia. cbv zeta. cbn [mbind option_bind].
    destruct (storeStories_total net
                (take (Z.to_nat (q * MAX + MAX - q * MAX))
                      (drop (Z.to_nat (q * MAX)) ids)) 0
                (replicate (Z.to_nat MAX) Story.zero)) as [stories Hs].
    + lia.
    + unfold len. rewrite length_take. lia.
    + exists (take (Z.to_nat (q * MAX + MAX - q * MAX))
                   (drop (Z.to_nat (q * MAX)) ids)), stories.
      split; [reflexivity |]. split.
      * unfold len in *. rewrite length_take, length_drop. lia.
      * split; [exact Hs |]. rewrite Hs. reflexivity.
  - intros Hk.
    assert (Hqk : q = k - 1) by (unfold MAX in *; lia).
    assert (Hsnap : len ids <= Z.max 0 (mul64 k MAX)).
    { replace (mul64 k MAX) with (k * MAX) by (unwrap; reflexivity).
      unfold MAX in *; lia. }
    split.
    + destruct (Update_next_page m (k - 1)) as [-> _].
      replace (add64 (k - 1) 1) with k by (unwrap; lia). reflexivity.
    + rewrite <- Hqk. split; [by rewrite Hself; apply Hpast |].
      rewrite (Hpast k Hsnap).
      destruct (loadPage_total net ids (q * MAX) (q * MAX + MAX))
        as [stories Hs]; [lia | lia | lia |].
      exists stories. apply Hs.
Qed.

(** A request for page 0 over a non-empty list is served from the
    head of the list. *)
Lemma fetchTopStories_first_page net ids :
  topstories net = inr ids -> 0 < len ids <= maxInt64 ->
  fetchTopStories net 0 = loadPage net ids 0 (Z.min MAX (len ids)) 0.
Proof.
  intros Htop Hlen. unfold fetchTopStories. rewrite Htop. cbv zeta.
  change (mul64 0 MAX) with 0. change (Z.max 0 0) with 0.
  rewrite Z.geb_leb.
  replace (len ids <=? 0) with false by (symmetry; apply Z.leb_gt; lia).
  unwrap. rewrite Z.add_0_l.
  destruct (Z.gtb_spec MAX (len ids)).
  - by rewrite Z.min_r by lia.
  - by rewrite Z.min_l by lia.
Qed.

(** C9 (as amended). The page keys add and subtract one in Go's [int]
    arithmetic with no clamp, write [loading = true] and nothing else
    in the model, and return the stories fetch with the moved [page];
    from page 0 the previous-page key stores -1. The fetch snaps only a
    request at or past the end: over a non-empty list, a negative page
    whose product with 20 fits an [int] has its [start] raised to 0, so
    the stories of the first page are loaded, the same as a fetch of
    page 0 loads, and the stored page is still the negative one. *)
Theorem page_keys_do_not_clamp
  (net : Network) (ids : list Z) (m : model) (page : Z) :
  int64 page ->
  topstories net = inr ids -> 0 < len ids <= maxInt64 ->
  (Update m (KeyMsg "l") page
   = Some (mkModel (stories m) (comments m) (commentHeights m) (cursor m)
                   (commentCursor m) true (commentsView m) (err m)
                   (width m) (height m),
           fetchTopStoriesCmd, add64 page 1) /\
   (page < maxInt64 -> add64 page 1 = page + 1)) /\
  (Update m (KeyMsg "h") page
   = Some (mkModel (stories m) (comments m) (commentHeights m) (cursor m)
                   (commentCursor m) true (commentsView m) (err m)
                   (width m) (height m),
           fetchTopStoriesCmd, sub64 page 1) /\
   (minInt64 < page -> sub64 page 1 = page - 1)) /\
  Update m (KeyMsg "h") 0
  = Some (mkModel (stories m) (comments m) (commentHeights m) (cursor m)
                  (commentCursor m) true (commentsView m) (err m)
                  (width m) (height m),
          fetchTopStoriesCmd, -1) /\
  (page < 0 -> minInt64 <= page * MAX ->
   exists stories,
     fetchTopStories net page = Some (loadedStoriesMsg stories, page) /\
     fetchTopStories net 0 = Some (loadedStoriesMsg stories, 0) /\
     fetchTopStories net page
     = loadPage net ids 0 (Z.min MAX (len ids)) page).
Proof.
  intros Hpage Htop Hlen.
  split; [split; [by destruct (Update_next_page m page) as [-> _]
                 | intros; by unwrap] |].
  split; [split; [by destruct (Update_prev_page m page) as [-> _]
                 | intros; by unwrap] |].
  split; [reflexivity |].
  intros Hneg Hfit.
  destruct (loadPage_total net ids 0 (Z.min MAX (len ids)))
    as [stories Hs]; [int64_range | int64_range | int64_range |].
  exists stories.
  rewrite (fetchTopStories_negative net ids page) by (auto; int64_range).
  rewrite (fetchTopStories_first_page net ids) by done.
  rewrite !Hs. done.
Qed.

(** ** More on the windows *)

(** Whatever the cursor and the height, a window lies inside the
    list. *)
Lemma centerWindow_inside n cursor maxVisible :
  0 <= n ->
  0 <= (centerWindow n cursor maxVisible).1 /\
  (centerWindow n cursor maxVisible).2 <= n.
Proof.
  intros Hn. unfold centerWindow.
  match goal with |- context [?a >? ?b] => destruct (Z.gtb_spec a b) end;
    simpl; lia.
Qed.

Lemma commentWindow_inside height commentCursor n :
  0 <= n ->
  0 <= (commentWindow height commentCursor n).1 /\
  (commentWindow height commentCursor n).2 <= n.
Proof.
  intros Hn. unfold commentWindow.
  repeat case_match; simpl; try lia. by apply centerWindow_inside.
Qed.

Lemma storyWindow_inside height cursor n :
  0 <= n ->
  0 <= (storyWindow height cursor n).1 /\
  (storyWindow height cursor n).2 <= n.
Proof.
  intros Hn. unfold storyWindow.
  repeat case_match; simpl; try lia. by apply centerWindow_inside.
Qed.

(** The center-then-clamp block is one clamp of the centered start
    into [[0, n - maxVisible]]; so the window moves by at most one item
    when the cursor moves by one. *)
Theorem centerWindow_is_a_clamp n cursor maxVisible :
  1 <= maxVisible < n -> n <= 2 ^ 62 -> 0 <= cursor < n ->
  centerWindow n cursor maxVisible
  = (Z.min (Z.max (cursor - maxVisible ÷ 2) 0) (n - maxVisible),
     Z.min (Z.max (cursor - maxVisible ÷ 2) 0) (n - maxVisible)
     + maxVisible) /\
  (cursor + 1 < n ->
   0 <= (centerWindow n (cursor + 1) maxVisible).1
        - (centerWindow n cursor maxVisible).1 <= 1).
Proof.
  clear wrapString.
  intros Hmv Hn Hc.
  assert (Hform : forall c, 0 <= c < n ->
            centerWindow n c maxVisible
            = (Z.min (Z.max (c - maxVisible ÷ 2) 0) (n - maxVisible),
               Z.min (Z.max (c - maxVisible ÷ 2) 0) (n - maxVisible)
               + maxVisible)).
  { intros c Hcn. unfold centerWindow.
    rewrite (quot64_exact maxVisible 2) by int64_range.
    assert (Hq : 0 <= maxVisible ÷ 2 /\ 2 * (maxVisible ÷ 2) <= maxVisible)
      by (Z.quot_rem_to_equations; lia).
    revert Hq. generalize (maxVisible ÷ 2). intros q Hq.
    unwrap. destruct (Z.gtb_spec (Z.max (c - q) 0 + maxVisible) n);
      f_equal; lia. }
  split; [by apply Hform |].
  intros Hnext. rewrite !Hform by lia. simpl. lia.
Qed.

(** How many rows a window has: [maxVisible] of them, or the whole
    list when that is shorter, when the terminal is too short for one
    comment, or when the height is not known. *)
Theorem window_row_count height cursor n :
  int64 height -> 0 < n <= 2 ^ 62 -> 0 <= cursor < n ->
  (5 <= height ->
   (commentWindow height cursor n).2 - (commentWindow height cursor n).1
   = Z.min ((height - 2) ÷ 3) n) /\
  (height < 5 ->
   commentWindow height cursor n = (0, n)) /\
  (8 <= height ->
   (storyWindow height cursor n).2 - (storyWindow height cursor n).1
   = Z.min ((height - 5) ÷ 3) n) /\
  (height <= 0 ->
   storyWindow height cursor n = (0, n)).
Proof.
  clear wrapString.
  intros Hh Hn Hc.
  split; [| split; [| split]]; intros Hrows.
  - unfold commentWindow.
    destruct (Z.gtb_spec height 0); [| lia].
    unfold sub64. rewrite (wrap64_small (height - 2)) by int64_range.
    rewrite quot64_exact by int64_range.
    assert (1 <= (height - 2) ÷ 3) by (Z.quot_rem_to_equations; lia).
    destruct (Z.gtb_spec ((height - 2) ÷ 3) 0); [| lia].
    destruct (Z.ltb_spec ((height - 2) ÷ 3) n); simpl; [| lia].
    pose proof (centerWindow_contains_cursor n cursor ((height - 2) ÷ 3)).
    lia.
  - unfold commentWindow.
    destruct (Z.gtb_spec height 0); [| reflexivity].
    unfold sub64. rewrite (wrap64_small (height - 2)) by int64_range.
    rewrite quot64_exact by int64_range.
    assert ((height - 2) ÷ 3 <= 0) by (Z.quot_rem_to_equations; lia).
    destruct (Z.gtb_spec ((height - 2) ÷ 3) 0); [lia | reflexivity].
  - unfold storyWindow.
    destruct (Z.gtb_spec height 0); [| lia].
    unfold sub64. rewrite (wrap64_small (height - 5)) by int64_range.
    rewrite quot64_exact by int64_range.
    assert (1 <= (height - 5) ÷ 3) by (Z.quot_rem_to_equations; lia).
    destruct (Z.ltb_spec ((height - 5) ÷ 3) n); simpl; [| lia].
    pose proof (centerWindow_contains_cursor n cursor ((height - 5) ÷ 3)).
    lia.
  - unfold storyWindow.
    destruct (Z.gtb_spec height 0); [lia | reflexivity].
Qed.

(** ** What [View] draws *)

Lemma seqZ_to_nat m n : seqZ m n = seqZ m (Z.of_nat (Z.to_nat n)).
Proof. unfold seqZ. by rewrite Nat2Z.id. Qed.

(** A row loop over [k] indices from [s] on, inside the list, draws the
    items [s .. s + k - 1] in order, each with its mark. *)
Lemma rows_of_window {A : Type} (l : list A) (c : Z) (k : nat) : forall s,
  (k <> 0%nat -> 0 <= s /\ s + Z.of_nat k <= len l) ->
  mapM (fun i => x ← index l i; Some (bool_decide (c = i), x))
       (seqZ s (Z.of_nat k))
  = Some (zip ((fun i => bool_decide (c = i)) <$> seqZ s (Z.of_nat k))
              (take k (drop (Z.to_nat s) l))).
Proof.
  induction k as [| k IH]; intros s Hin; [done |].
  destruct Hin as [Hs Hfit]; [done |].
  rewrite seqZ_cons by lia.
  replace (Z.pred (Z.of_nat (S k))) with (Z.of_nat k) by lia.
  destruct (lookup_lt_is_Some_2 l (Z.to_nat s)) as [x Hx];
    [unfold len in Hfit; lia |].
  assert (Hidx : index l s = Some x).
  { unfold index.
    replace (0 <=? s) with true by (symmetry; apply Z.leb_le; lia).
    replace (s <? len l) with true by (symmetry; apply Z.ltb_lt; lia).
    exact Hx. }
  cbn [mapM fmap list_fmap]. rewrite Hidx. cbn [mbind option_bind].
  rewrite (IH (Z.succ s)) by lia. cbn [mbind option_bind mret option_ret].
  rewrite (drop_S _ _ _ Hx). cbn [take zip zip_with].
  by replace (Z.to_nat (Z.succ s)) with (S (Z.to_nat s)) by lia.
Qed.

(** In a window that holds the cursor, the mark is on the cursor's row
    and on no other. *)
Lemma marks_of_window (c s k : Z) (j : nat) :
  s <= c < s + k ->
  ((fun i => bool_decide (c = i)) <$> seqZ s k) !! j = Some true
  <-> j = Z.to_nat (c - s).
Proof.
  intros Hin. rewrite list_lookup_fmap. split.
  - intros H. destruct (seqZ s k !! j) as [i |] eqn:Hi; [| done].
    apply lookup_seqZ in Hi as [-> _]. simpl in H.
    injection H as H. apply bool_decide_eq_true in H. lia.
  - intros ->. rewrite lookup_seqZ_lt by lia. simpl. f_equal.
    apply bool_decide_eq_true. lia.
Qed.

(** The stories branch of [View], in closed form. *)
Lemma View_stories_rows (m : model) s e :
  len (stories m) = MAX -> err m = None -> commentsView m = false ->
  storyWindow (height m) (cursor m) MAX = (s, e) ->
  View m
  = Some (StoriesFrame (loading m)
            (zip ((fun i => bool_decide (cursor m = i)) <$> seqZ s (e - s))
                 (take (Z.to_nat (e - s))
                       (drop (Z.to_nat s) (stories m))))).
Proof.
  intros Hslots Herr Hview Hw. unfold View. rewrite Herr, Hview.
  unfold len_stories. rewrite Hw.
  pose proof (storyWindow_inside (height m) (cursor m) MAX) as Hin.
  rewrite Hw in Hin. simpl in Hin. destruct Hin as [Hs He]; [done |].
  rewrite (seqZ_to_nat s (e - s)).
  rewrite rows_of_window by lia. reflexivity.
Qed.

(** The comments branch of [View], in closed form. *)
Lemma View_comments_rows (m : model) s e :
  err m = None -> commentsView m = true ->
  commentWindow (height m) (commentCursor m) (len (comments m)) = (s, e) ->
  View m
  = Some (CommentsFrame (loading m)
            (zip ((fun i => bool_decide (commentCursor m = i))
                    <$> seqZ s (e - s))
                 (take (Z.to_nat (e - s))
                       (drop (Z.to_nat s) (comments m))))).
Proof.
  intros Herr Hview Hw. unfold View. rewrite Herr, Hview, Hw.
  pose proof (commentWindow_inside (height m) (commentCursor m)
                (len (comments m)) (len_nonneg _)) as Hin.
  rewrite Hw in Hin. simpl in Hin. destruct Hin as [Hs He].
  rewrite Z.min_l by lia.
  rewrite (seqZ_to_nat s (e - s)).
  rewrite rows_of_window by lia. reflexivity.
Qed.

(** Both branches of [View] return a frame when the slots are in
    place. *)
Lemma View_returns_a_frame (m : model) :
  len (stories m) = MAX -> exists frame, View m = Some frame.
Proof.
  intros Hslots. unfold View.
  pose proof (storyWindow_inside (height m) (cursor m) MAX) as Hs.
  pose proof (commentWindow_inside (height m) (commentCursor m)
                (len (comments m)) (len_nonneg _)) as Hc.
  destruct (err m); [by eexists |].
  destruct (commentsView m).
  - destruct (commentWindow _ _ _) as [s e]. simpl in Hc.
    rewrite Z.min_l by lia. rewrite (seqZ_to_nat s (e - s)).
    rewrite rows_of_window by lia. by eexists.
  - unfold len_stories. destruct (storyWindow _ _ _) as [s e].
    simpl in Hs. destruct Hs; [done |].
    rewrite (seqZ_to_nat s (e - s)).
    rewrite rows_of_window by lia. by eexists.
Qed.

(** With its 20 slots in place, [View] draws without a panic, whatever
    the cursors, the flags and the terminal size. *)
Theorem View_never_panics (m : model) :
  len (stories m) = MAX -> is_Some (View m).
Proof.
  intros Hslots. destruct (err m) as [e |] eqn:Herr.
  - unfold View. rewrite Herr. by eexists.
  - destruct (commentsView m) eqn:Hview.
    + destruct (commentWindow (height m) (commentCursor m)
                  (len (comments m))) as [s e] eqn:Hw.
      rewrite (View_comments_rows m s e) by done. by eexists.
    + destruct (storyWindow (height m) (cursor m) MAX) as [s e] eqn:Hw.
      rewrite (View_stories_rows m s e) by done. by eexists.
Qed.

(** The rows of a window come with its marks and its items. *)
Lemma window_rows_split {A : Type} (l : list A) (c s e : Z) :
  0 <= s -> e <= len l ->
  (zip ((fun i => bool_decide (c = i)) <$> seqZ s (e - s))
       (take (Z.to_nat (e - s)) (drop (Z.to_nat s) l))).*1
  = (fun i => bool_decide (c = i)) <$> seqZ s (e - s) /\
  (zip ((fun i => bool_decide (c = i)) <$> seqZ s (e - s))
       (take (Z.to_nat (e - s)) (drop (Z.to_nat s) l))).*2
  = take (Z.to_nat (e - s)) (drop (Z.to_nat s) l).
Proof.
  intros Hs He.
  assert (Hlen : length ((fun i => bool_decide (c = i)) <$> seqZ s (e - s))
                 = length (take (Z.to_nat (e - s)) (drop (Z.to_nat s) l))).
  { rewrite length_fmap, length_seqZ, length_take, length_drop.
    unfold len in He. lia. }
  split; [apply fst_zip | apply snd_zip]; lia.
Qed.

(** In the comments view, at every terminal height, the rows drawn are
    the comments of the window in list order, and the mark is on the
    row of the comment cursor and on no other row. *)
Theorem View_comments_marks_the_cursor (m : model) :
  err m = None -> commentsView m = true -> int64 (height m) ->
  0 <= commentCursor m < len (comments m) -> len (comments m) <= 2 ^ 62 ->
  exists rows s e,
    View m = Some (CommentsFrame (loading m) rows) /\
    commentWindow (height m) (commentCursor m) (len (comments m)) = (s, e) /\
    rows.*2 = take (Z.to_nat (e - s)) (drop (Z.to_nat s) (comments m)) /\
    (forall j, rows.*1 !! j = Some true
               <-> j = Z.to_nat (commentCursor m - s)) /\
    rows.*2 !! Z.to_nat (commentCursor m - s)
    = comments m !! Z.to_nat (commentCursor m).
Proof.
  intros Herr Hview Hh Hc Hn.
  pose proof (commentWindow_contains_cursor (height m) (commentCursor m)
                (len (comments m)) Hh ltac:(lia) Hc) as Hin.
  destruct (commentWindow (height m) (commentCursor m) (len (comments m)))
    as [s e] eqn:Hw.
  simpl in Hin.
  destruct (window_rows_split (comments m) (commentCursor m) s e)
    as [Hmarks Hitems]; [lia | lia |].
  eexists _, s, e. split; [by apply View_comments_rows |].
  split; [done |]. split; [exact Hitems |]. split.
  - intros j. rewrite Hmarks. apply marks_of_window. lia.
  - rewrite Hitems. rewrite lookup_take_lt by lia. rewrite lookup_drop.
    f_equal. lia.
Qed.

(** The same in the stories view, on a terminal of 8 rows or more or
    of unknown height. *)
Theorem View_stories_marks_the_cursor (m : model) :
  len (stories m) = MAX ->
  err m = None -> commentsView m = false -> int64 (height m) ->
  height m <= 0 \/ 8 <= height m ->
  0 <= cursor m < MAX ->
  exists rows s e,
    View m = Some (StoriesFrame (loading m) rows) /\
    storyWindow (height m) (cursor m) MAX = (s, e) /\
    rows.*2 = take (Z.to_nat (e - s)) (drop (Z.to_nat s) (stories m)) /\
    (forall j, rows.*1 !! j = Some true <-> j = Z.to_nat (cursor m - s)) /\
    rows.*2 !! Z.to_nat (cursor m - s) = stories m !! Z.to_nat (cursor m).
Proof.
  intros Hslots Herr Hview Hh Hrows Hc.
  pose proof (storyWindow_contains_cursor (height m) (cursor m) MAX
                Hh Hrows ltac:(int64_range) Hc) as Hin.
  destruct (storyWindow (height m) (cursor m) MAX) as [s e] eqn:Hw.
  simpl in Hin.
  destruct (window_rows_split (stories m) (cursor m) s e)
    as [Hmarks Hitems]; [lia | lia |].
  eexists _, s, e. split; [by apply View_stories_rows |].
  split; [done |]. split; [exact Hitems |]. split.
  - intros j. rewrite Hmarks. apply marks_of_window. lia.
  - rewrite Hitems. rewrite lookup_take_lt by lia. rewrite lookup_drop.
    f_equal. lia.
Qed.

(** ** What the machine keeps *)

(** A key writes the cursors, the two flags and [page], never the
    data. *)
Lemma Update_key_frame m key page m' c p' :
  Update m (KeyMsg key) page = Some (m', c, p') ->
  stories m' = stories m /\ comments m' = comments m /\
  commentHeights m' = commentHeights m /\ err m' = err m /\
  width m' = width m /\ height m' = height m.
Proof.
  intros HU. unfold Update in HU.
  repeat case_match; simplify_option_eq; done.
Qed.

Lemma Update_keeps_wellFormed m msg page m' c p' :
  wf_msg msg -> wellFormed m ->
  Update m msg page = Some (m', c, p') -> wellFormed m'.
Proof.
  intros Hwf (Hslots & Hheights & Hw & Hh) HU.
  destruct msg as [Width Height | loaded | loaded | e | key |].
  - simpl in HU, Hwf. simplify_eq. unfold wellFormed; simpl; tauto.
  - simpl in HU, Hwf. simplify_eq. unfold wellFormed; simpl; tauto.
  - rewrite Update_loadedCommentsMsg in HU. simplify_eq.
    unfold wellFormed; simpl. rewrite length_fmap. tauto.
  - simpl in HU. simplify_eq. unfold wellFormed; simpl; tauto.
  - apply Update_key_frame in HU as (H1 & H2 & H3 & _ & H5 & H6).
    unfold wellFormed. rewrite H1, H2, H3, H5, H6. tauto.
  - simpl in HU. simplify_eq. unfold wellFormed; tauto.
Qed.

(** [Update] moves [page] by one or leaves it. *)
Lemma Update_page m msg page m' c p' :
  Update m msg page = Some (m', c, p') ->
  p' = page \/ p' = add64 page 1 \/ p' = sub64 page 1.
Proof.
  intros HU. destruct msg as [? ? | ? | loaded | ? | key |];
    try (simpl in HU; simplify_eq; by left).
  - rewrite Update_loadedCommentsMsg in HU. simplify_eq. by left.
  - unfold Update in HU. repeat case_match; simplify_option_eq; tauto.
Qed.

(** [fetchTopStories] leaves [page] or stores the snapped one. *)
Lemma fetchTopStories_page net page msg p' :
  fetchTopStories net page = Some (msg, p') ->
  p' = page \/
  exists ids, topstories net = inr ids /\
              p' = sub64 (quot64 (len ids) MAX) 1.
Proof.
  unfold fetchTopStories, loadPage. intros HF.
  destruct (topstories net) as [e | ids]; [simplify_eq; by left |].
  cbv zeta in HF. repeat case_match; simplify_option_eq; eauto.
Qed.

Lemma initial_wellFormed : wellFormed initialModel.
Proof. repeat split; vm_compute; congruence. Qed.

(** The three invariants together, along the steps from the start. *)
Lemma reachable_invariants w :
  reachable w ->
  cursorsInBounds (mdl w) /\ wellFormed (mdl w) /\ int64 (page w).
Proof.
  revert w.
  apply (rtc_ind_r
           (fun w => cursorsInBounds (mdl w) /\ wellFormed (mdl w)
                     /\ int64 (page w)) initialWorld).
  - split; [apply initial_cursorsInBounds |].
    split; [apply initial_wellFormed |]. vm_compute; split; congruence.
  - intros w1 w2 _ Hstep (Hcur & Hwf & Hpage).
    destruct Hstep as [w msg m' c p' Hmsg HU | w net msg p' HF]; simpl.
    + split; [eapply Update_keeps_cursors; eauto |].
      split; [eapply Update_keeps_wellFormed; eauto |].
      apply Update_page in HU as [-> | [-> | ->]];
        [done | apply wrap64_range | apply wrap64_range].
    + split; [done |]. split; [done |].
      apply fetchTopStories_page in HF as [-> | (ids & _ & ->)];
        [done | apply wrap64_range].
Qed.

(** In every reachable state the model has its 20 story slots and
    one stored height per comment, the terminal size is a pair of
    [int]s, and [page] is an [int]. *)
Theorem reachable_states_are_well_formed (w : World) :
  reachable w ->
  len (stories (mdl w)) = MAX /\
  length (commentHeights (mdl w)) = length (comments (mdl w)) /\
  int64 (width (mdl w)) /\ int64 (height (mdl w)) /\
  int64 (page w).
Proof.
  intros Hreach.
  destruct (reachable_invariants w Hreach) as (_ & Hwf & Hpage).
  destruct Hwf as (H1 & H2 & H3 & H4). repeat split; assumption || apply H3
    || apply H4 || apply Hpage.
Qed.

(** From a reachable state no message makes [Update] panic, and
    [View] draws the state it returns. *)
Theorem Update_never_panics_when_reachable (w : World) (msg : Msg) :
  reachable w -> wf_msg msg ->
  exists m' c p',
    Update (mdl w) msg (page w) = Some (m', c, p') /\
    is_Some (View m').
Proof.
  intros Hreach Hmsg.
  destruct (reachable_invariants w Hreach) as (Hcur & Hwf & _).
  assert (HU : is_Some (Update (mdl w) msg (page w))).
  { destruct msg as [? ? | ? | loaded | ? | key |]; try by eexists.
    - rewrite Update_loadedCommentsMsg. by eexists.
    - assert (Hidx : is_Some (index (stories (mdl w)) (cursor (mdl w)))).
      { destruct Hcur as (Hc & _), Hwf as (Hslots & _). unfold index.
        replace (0 <=? cursor (mdl w)) with true
          by (symmetry; apply Z.leb_le; lia).
        replace (cursor (mdl w) <? len (stories (mdl w))) with true
          by (symmetry; apply Z.ltb_lt; lia).
        apply lookup_lt_is_Some_2. unfold len in Hslots. lia. }
      destruct Hidx as [story Hidx].
      unfold Update. rewrite Hidx. repeat case_match; by eexists. }
  destruct HU as [[[m' c] p'] HU]. exists m', c, p'. split; [exact HU |].
  destruct (View_returns_a_frame m') as [frame Hframe]; [| by eexists].
  by destruct (Update_keeps_wellFormed _ _ _ _ _ _ Hmsg Hwf HU).
Qed.

(** The comments command returned from a reachable state in the
    stories view does not panic when it runs: it fetches the thread of
    the story under the cursor. *)
Theorem comments_command_fetches_selected_story (w : World) :
  reachable w -> commentsView (mdl w) = false ->
  exists m1 story,
    Update (mdl w) (KeyMsg "c") (page w)
    = Some (m1, fetchCommentsCmd m1, page w) /\
    stories (mdl w) !! Z.to_nat (cursor (mdl w)) = Some story /\
    forall net, runFetchComments net m1 = Some (fetchComments net story).
Proof.
  intros Hreach Hview.
  destruct (reachable_invariants w Hreach) as ((Hc & _) & (Hslots & _) & _).
  destruct (lookup_lt_is_Some_2 (stories (mdl w))
              (Z.to_nat (cursor (mdl w)))) as [story Hstory];
    [unfold len in Hslots; lia |].
  eexists _, story. split; [| split; [exact Hstory |]].
  - unfold Update; simpl. rewrite Hview. reflexivity.
  - intros net. unfold runFetchComments, index; simpl.
    replace (0 <=? cursor (mdl w)) with true
      by (symmetry; apply Z.leb_le; lia).
    replace (cursor (mdl w) <? len (stories (mdl w))) with true
      by (symmetry; apply Z.ltb_lt; lia).
    simpl. by rewrite Hstory.
Qed.

(** No message clears a stored error. *)
Lemma Update_keeps_err m msg page m' c p' :
  Update m msg page = Some (m', c, p') ->
  is_Some (err m) -> is_Some (err m').
Proof.
  intros HU Herr. destruct msg as [? ? | ? | loaded | ? | key |];
    try (simpl in HU; simplify_eq; simpl; done || by eexists).
  - rewrite Update_loadedCommentsMsg in HU. by simplify_eq.
  - apply Update_key_frame in HU as (_ & _ & _ & -> & _). done.
Qed.

(** Once an error is stored it stays: after any number of keys,
    resizes, completions and fetches, an error is still stored and
    [View] draws the error screen. *)
Theorem error_screen_is_final (w w' : World) :
  rtc step w w' -> is_Some (err (mdl w)) ->
  is_Some (err (mdl w')) /\
  exists e, View (mdl w') = Some (ErrorFrame e).
Proof.
  intros Hsteps Herr.
  assert (Hstays : is_Some (err (mdl w'))).
  { induction Hsteps as [| w1 w2 w3 Hstep _ IH]; [done |].
    apply IH. destruct Hstep as [w msg m' c p' _ HU | w net msg p' _].
    - simpl. eapply Update_keeps_err; eauto.
    - done. }
  split; [exact Hstays |].
  destruct Hstays as [e He]. exists e. unfold View. by rewrite He.
Qed.

(** ** Moving the cursors *)

Lemma set_cursor_same m : set_cursor (cursor m) m = m.
Proof. by destruct m. Qed.


(** One [j] or [k] in the stories view. *)
Lemma Update_down_stories m page :
  commentsView m = false -> 0 <= cursor m < MAX ->
  Update m (KeyMsg "j") page
  = Some (set_cursor (Z.min (cursor m + 1) 19) m, nilCmd, page).
Proof.
  intros Hview Hc.
  assert (Hslots : sub64 (len_stories (stories m)) 1 = 19) by reflexivity.
  unfold Update. cbn [isKey existsb String.eqb Ascii.eqb Bool.eqb orb].
  rewrite Hview, Hslots.
  destruct (Z.ltb_spec (cursor m) 19).
  - unwrap. by rewrite Z.min_l by lia.
  - rewrite Z.min_r by lia.
    replace 19 with (cursor m) by int64_range.
    by rewrite set_cursor_same.
Qed.

Lemma Update_up_stories m page :
  commentsView m = false -> 0 <= cursor m < MAX ->
  Update m (KeyMsg "k") page
  = Some (set_cursor (Z.max (cursor m - 1) 0) m, nilCmd, page).
Proof.
  intros Hview Hc.
  unfold Update. cbn [isKey existsb String.eqb Ascii.eqb Bool.eqb orb].
  rewrite Hview.
  destruct (Z.gtb_spec (cursor m) 0).
  - unwrap. by rewrite Z.max_l by lia.
  - rewrite Z.max_r by lia.
    replace 0 with (cursor m) by lia.
    by rewrite set_cursor_same.
Qed.

(** [n] times [j], then [n] times [k], in the stories view. *)
Lemma presses_down_stories n : forall m page,
  commentsView m = false -> 0 <= cursor m < MAX ->
  presses "j" n m page
  = Some (set_cursor (Z.min (cursor m + Z.of_nat n) 19) m, page).
Proof.
  induction n as [| n IH]; intros m page Hview Hc.
  - simpl. rewrite Z.add_0_r, Z.min_l by int64_range.
    by rewrite set_cursor_same.
  - cbn [presses]. rewrite Update_down_stories by done.
    cbn [mbind option_bind fst snd].
    rewrite IH; [| done | simpl; int64_range].
    simpl. do 2 f_equal. unfold set_cursor; simpl. f_equal. lia.
Qed.

Lemma presses_up_stories n : forall m page,
  commentsView m = false -> 0 <= cursor m < MAX ->
  presses "k" n m page
  = Some (set_cursor (Z.max (cursor m - Z.of_nat n) 0) m, page).
Proof.
  induction n as [| n IH]; intros m page Hview Hc.
  - simpl. rewrite Z.sub_0_r, Z.max_l by lia.
    by rewrite set_cursor_same.
  - cbn [presses]. rewrite Update_up_stories by done.
    cbn [mbind option_bind fst snd].
    rewrite IH; [| done | simpl; int64_range].
    simpl. do 2 f_equal. unfold set_cursor; simpl. f_equal. lia.
Qed.


(** In the stories view, going down [n] slots and up [n] slots again
    gives back the model, as long as the way down does not hit the last
    slot. *)
Theorem down_then_up_round_trip (m : model) (page : Z) (n : nat) :
  commentsView m = false -> 0 <= cursor m ->
  cursor m + Z.of_nat n <= 19 ->
  (r ← presses "j" n m page; presses "k" n r.1 r.2) = Some (m, page).
Proof.
  intros Hview Hc Hfit.
  rewrite presses_down_stories by (done || int64_range).
  cbn [mbind option_bind fst snd].
  rewrite presses_up_stories by (done || (simpl; int64_range)).
  simpl. rewrite Z.min_l by lia.
  replace (Z.max (cursor m + Z.of_nat n - Z.of_nat n) 0) with (cursor m)
    by lia.
  unfold set_cursor; simpl. by destruct m.
Qed.







(** ** Keys and the data *)

(** No key writes the story slots, the comments, the stored heights,
    the stored error or the terminal size; and a key the switch has no
    case for changes nothing at all and returns no command. *)
Theorem keys_leave_the_data (m : model) (key : string) (page : Z) :
  (forall m' c p',
      Update m (KeyMsg key) page = Some (m', c, p') ->
      stories m' = stories m /\ comments m' = comments m /\
      commentHeights m' = commentHeights m /\ err m' = err m /\
      width m' = width m /\ height m' = height m) /\
  (isKey key boundKeys = false ->
   Update m (KeyMsg key) page = Some (m, nilCmd, page)).
Proof.
  split; [intros m' c p'; apply Update_key_frame |].
  intros Hfree. unfold isKey, boundKeys in Hfree. cbn [existsb] in Hfree.
  repeat (apply orb_false_elim in Hfree as [? Hfree]).
  unfold Update, isKey. cbn [existsb].
  repeat match goal with
         | H : String.eqb key _ = false |- _ => rewrite H; clear H
         end.
  reflexivity.
Qed.

(** ** What a fetch returns *)

(** The store loop writes one slot per id, in order, from the first
    free slot on. *)
Lemma storeStories_fills net ids : forall (pre : list Story.t) (k : nat),
  (length pre + k)%nat = Z.to_nat MAX -> (length ids <= k)%nat ->
  storeStories net (Z.of_nat (length pre)) ids
               (pre ++ replicate k Story.zero)
  = Some (pre ++ (slotOf net <$> ids)
              ++ replicate (k - length ids) Story.zero).
Proof.
  induction ids as [| id rest IH]; intros pre k Hslots Hfit.
  - simpl. by rewrite Nat.sub_0_r.
  - destruct k as [| k]; [simpl in Hfit; lia |].
    simpl in Hfit. cbn [storeStories replicate fmap list_fmap length].
    assert (Hnext : forall s : Story.t,
              Z.of_nat (length pre) + 1 = Z.of_nat (length (pre ++ [s])))
      by (intros s; rewrite length_app; simpl; lia).
    assert (Hslot : slotOf net id = default Story.zero (item net id))
      by reflexivity.
    destruct (item net id) as [s |]; simpl in Hslot; rewrite Hslot.
    + unfold len_stories.
      replace (0 <=? Z.of_nat (length pre)) with true
        by (symmetry; apply Z.leb_le; lia).
      replace (Z.of_nat (length pre) <? MAX) with true
        by (symmetry; apply Z.ltb_lt; unfold MAX in *; lia).
      cbn [andb]. rewrite Nat2Z.id.
      rewrite insert_app_r_alt by lia. rewrite Nat.sub_diag.
      change (<[0%nat:=s]> (Story.zero :: replicate k Story.zero))
        with (s :: replicate k Story.zero).
      rewrite (Hnext s).
      replace (pre ++ s :: replicate k Story.zero)
        with ((pre ++ [s]) ++ replicate k Story.zero)
        by (by rewrite <- app_assoc).
      rewrite IH; [| rewrite length_app; simpl; lia | lia].
      by rewrite <- !app_assoc.
    + rewrite (Hnext Story.zero).
      replace (pre ++ Story.zero :: replicate k Story.zero)
        with ((pre ++ [Story.zero]) ++ replicate k Story.zero)
        by (by rewrite <- app_assoc).
      rewrite IH; [| rewrite length_app; simpl; lia | lia].
      by rewrite <- !app_assoc.
Qed.

(** What [loadPage] loads: the slots of the ids of the slice, then
    zero values up to [MAX]. *)
Lemma loadPage_contents net ids lo hi page :
  0 <= lo <= hi -> hi <= len ids -> hi - lo <= MAX ->
  loadPage net ids lo hi page
  = Some (loadedStoriesMsg
            ((slotOf net <$> take (Z.to_nat (hi - lo))
                                  (drop (Z.to_nat lo) ids))
               ++ replicate (Z.to_nat MAX - Z.to_nat (hi - lo))
                            Story.zero),
          page).
Proof.
  intros Hlo Hhi Hfit. unfold loadPage.
  rewrite slice_in_range by lia. cbv zeta. cbn [mbind option_bind].
  pose proof (storeStories_fills net
                (take (Z.to_nat (hi - lo)) (drop (Z.to_nat lo) ids))
                [] (Z.to_nat MAX)) as Hfill.
  cbn [length app] in Hfill. change (Z.of_nat 0) with 0 in Hfill.
  assert (Hlen : length (take (Z.to_nat (hi - lo)) (drop (Z.to_nat lo) ids))
                 = Z.to_nat (hi - lo)).
  { rewrite length_take, length_drop. unfold len in Hhi. lia. }
  rewrite Hfill by (rewrite ?Hlen; lia).
  cbn [mbind option_bind]. by rewrite Hlen.
Qed.

(** A request before the end of the list is served as asked, from
    [start] on. *)
Lemma fetchTopStories_before_end net ids page :
  topstories net = inr ids -> len ids + MAX <= maxInt64 ->
  Z.max 0 (mul64 page MAX) < len ids ->
  fetchTopStories net page
  = loadPage net ids (Z.max 0 (mul64 page MAX))
             (Z.min (Z.max 0 (mul64 page MAX) + MAX) (len ids)) page.
Proof.
  intros Htop Hlen Hin. unfold fetchTopStories. rewrite Htop. cbv zeta.
  revert Hin. generalize (Z.max 0 (mul64 page MAX)) (Z.le_max_l 0 (mul64 page MAX)).
  intros start Hstart Hin.
  rewrite Z.geb_leb.
  replace (len ids <=? start) with false by (symmetry; apply Z.leb_gt; lia).
  unwrap.
  destruct (Z.gtb_spec (start + MAX) (len ids)).
  - by rewrite Z.min_r by lia.
  - by rewrite Z.min_l by lia.
Qed.

(** The stories a fetch returns when the request lies before the end
    of the list: slot [i] holds the item of the id at [start + i] when
    that item decodes, and the zero value when it fails or when the list
    ends before it; [page] is left as it is. *)
Theorem fetched_page_contents
  (net : Network) (ids : list Z) (page start : Z) :
  topstories net = inr ids -> len ids + MAX <= maxInt64 ->
  start = Z.max 0 (mul64 page MAX) -> start < len ids ->
  fetchTopStories net page
  = Some (loadedStoriesMsg
            ((slotOf net <$> take (Z.to_nat MAX) (drop (Z.to_nat start) ids))
               ++ replicate
                    (Z.to_nat MAX
                     - length (take (Z.to_nat MAX)
                                    (drop (Z.to_nat start) ids)))
                    Story.zero),
          page).
Proof.
  intros Htop Hlen -> Hin.
  rewrite (fetchTopStories_before_end net ids page) by done.
  revert Hin. generalize (Z.max 0 (mul64 page MAX)) (Z.le_max_l 0 (mul64 page MAX)).
  intros start Hstart Hin.
  rewrite loadPage_contents by int64_range.
  assert (Htake : take (Z.to_nat (Z.min (start + MAX) (len ids) - start))
                       (drop (Z.to_nat start) ids)
                  = take (Z.to_nat MAX) (drop (Z.to_nat start) ids)).
  { destruct (Z.le_gt_cases (start + MAX) (len ids)).
    - by rewrite Z.min_l by lia; replace (start + MAX - start) with MAX by lia.
    - rewrite Z.min_r by lia.
      rewrite !take_ge; [done | |]; rewrite length_drop; unfold len in *; lia. }
  rewrite Htake. do 4 f_equal.
  rewrite length_take, length_drop. unfold len, MAX in *. f_equal. lia.
Qed.

Lemma storeStories_length net ids : forall i stories stories',
  storeStories net i ids stories = Some stories' ->
  length stories' = length stories.
Proof.
  induction ids as [| id rest IH]; intros i stories stories' HS;
    simpl in HS; [by simplify_eq |].
  destruct (item net id); [| by eapply IH].
  case_match; [| done]. apply IH in HS. by rewrite length_insert in HS.
Qed.

(** What [loadPage] returns carries the [page] it was given, and its
    slice did not panic. *)
Lemma loadPage_Some net ids lo hi page msg p' :
  loadPage net ids lo hi page = Some (msg, p') ->
  p' = page /\ 0 <= lo <= hi /\
  exists stories, msg = loadedStoriesMsg stories /\ len stories = MAX.
Proof.
  unfold loadPage, slice. intros HL.
  destruct ((0 <=? lo) && (lo <=? hi) && (hi <=? len ids)) eqn:Hb;
    [| done].
  apply andb_prop in Hb as [Hb _]. apply andb_prop in Hb as [H1 H2].
  apply Z.leb_le in H1, H2. cbn [mbind option_bind] in HL.
  destruct (storeStories net 0 _ _) as [stories |] eqn:HS; [| done].
  cbn [mbind option_bind] in HL. simplify_eq.
  split; [done |]. split; [lia |]. exists stories. split; [done |].
  apply storeStories_length in HS. unfold len. rewrite HS, length_replicate.
  by vm_compute.
Qed.

(** A fetch that returns hands [Update] a message of the right shape:
    the error of the list request, or an array of exactly [MAX]
    slots. *)
Theorem fetch_result_is_well_formed
  (net : Network) (page : Z) (msg : Msg) (p' : Z) :
  fetchTopStories net page = Some (msg, p') ->
  wf_msg msg /\
  ((exists e, topstories net = inl e /\ msg = errMsg e /\ p' = page) \/
   (exists ids stories,
       topstories net = inr ids /\ msg = loadedStoriesMsg stories /\
       len stories = MAX)).
Proof.
  intros HF. unfold fetchTopStories in HF.
  destruct (topstories net) as [e | ids] eqn:Htop.
  - simplify_eq. split; [exact I |]. left. by exists e.
  - cbv zeta in HF.
    assert (Hshape : exists stories,
               msg = loadedStoriesMsg stories /\ len stories = MAX).
    { repeat case_match; simplify_eq;
        by apply loadPage_Some in HF as (_ & _ & Hs). }
    destruct Hshape as (stories & -> & Hslots).
    split; [exact Hslots |]. right. by exists ids, stories.
Qed.

(** When the list request succeeds, a fetch panics exactly when the
    list has fewer than [MAX] ids and the request is at or past its
    end; in particular every fetch over an empty list panics. *)
Theorem fetch_panics_exactly_on_short_lists
  (net : Network) (ids : list Z) (page : Z) :
  topstories net = inr ids -> len ids + MAX <= maxInt64 ->
  (fetchTopStories net page = None
   <-> len ids < MAX /\ len ids <= Z.max 0 (mul64 page MAX)) /\
  (ids = [] -> fetchTopStories net page = None).
Proof.
  clear wrapString.
  intros Htop Hlen.
  pose proof (len_nonneg ids) as Hnn.
  assert (Hpanic : len ids < MAX -> len ids <= Z.max 0 (mul64 page MAX) ->
            fetchTopStories net page = None).
  { intros Hshort Hpast.
    rewrite (fetchTopStories_past_end net ids page)
      by (done || int64_range).
    assert (Hq : len ids ÷ MAX = 0)
      by (unfold MAX in *; Z.quot_rem_to_equations; lia).
    rewrite Hq. unfold loadPage. by rewrite slice_negative by (by vm_compute). }
  split; [split |].
  - intros Hnone.
    destruct (Z.lt_ge_cases (Z.max 0 (mul64 page MAX)) (len ids)) as [Hin | Hpast].
    + rewrite (fetchTopStories_before_end net ids page) in Hnone by done.
      destruct (loadPage_total net ids (Z.max 0 (mul64 page MAX))
                  (Z.min (Z.max 0 (mul64 page MAX) + MAX) (len ids)))
        as [stories Hs]; [int64_range | int64_range | int64_range |].
      by rewrite Hs in Hnone.
    + split; [| done].
      destruct (Z.lt_ge_cases (len ids) MAX) as [| Hfull]; [done |].
      rewrite (fetchTopStories_past_end net ids page) in Hnone
        by (done || int64_range).
      assert (Hq : MAX * (len ids ÷ MAX) <= len ids
                   < MAX * (len ids ÷ MAX) + MAX)
        by (unfold MAX; Z.quot_rem_to_equations; lia).
      destruct (loadPage_total net ids ((len ids ÷ MAX - 1) * MAX)
                  ((len ids ÷ MAX - 1) * MAX + MAX))
        as [stories Hs]; [int64_range | int64_range | int64_range |].
      by rewrite Hs in Hnone.
  - intros [Hshort Hpast]. by apply Hpanic.
  - intros ->. apply Hpanic; [by vm_compute |].
    change (len []) with 0. lia.
Qed.

(** A fetch that returns stories leaves [page] before the end of the
    list, and fetching again over the same answers returns the same
    stories and the same [page]. *)
Theorem fetch_settles_the_page
  (net : Network) (ids : list Z) (page : Z) (msg : Msg) (p' : Z) :
  topstories net = inr ids -> len ids + MAX <= maxInt64 ->
  fetchTopStories net page = Some (msg, p') ->
  Z.max 0 (mul64 p' MAX) < len ids /\
  fetchTopStories net p' = Some (msg, p').
Proof.
  clear wrapString.
  intros Htop Hlen HF.
  pose proof (len_nonneg ids) as Hnn.
  destruct (Z.lt_ge_cases (Z.max 0 (mul64 page MAX)) (len ids)) as [Hin | Hpast].
  - assert (Hp : p' = page).
    { rewrite (fetchTopStories_before_end net ids page) in HF by done.
      by apply loadPage_Some in HF as [-> _]. }
    subst p'. by split.
  - rewrite (fetchTopStories_past_end net ids page) in HF
      by (done || int64_range).
    assert (Hq : MAX * (len ids ÷ MAX) <= len ids
                 < MAX * (len ids ÷ MAX) + MAX)
      by (unfold MAX; Z.quot_rem_to_equations; lia).
    revert HF Hq. generalize (len ids ÷ MAX). intros d HF Hq.
    pose proof (loadPage_Some _ _ _ _ _ _ _ HF) as (-> & Hlo & _).
    assert (Hmul : mul64 (d - 1) MAX = (d - 1) * MAX) by (by unwrap).
    rewrite Hmul. split; [int64_range |].
    rewrite (fetchTopStories_before_end net ids (d - 1))
      by (done || (rewrite Hmul; int64_range)).
    rewrite Hmul, Z.max_r by lia.
    by rewrite Z.min_l by int64_range.
Qed.

Lemma length_omap_le {A B : Type} (f : A -> option B) (l : list A) :
  (length (omap f l) <= length l)%nat.
Proof.
  induction l as [| x l IH]; [done |].
  cbn [omap list_omap]. destruct (f x); simpl; lia.
Qed.

(** [fetchComments] returns the kids that decode, in the order of
    [Kids], and skips the ones that fail: no more comments than kids,
    every comment is the decoding of a kid, and when every kid decodes
    there is exactly one comment per kid, in order. It never fails: a
    story without kids gives the empty thread. *)
Theorem fetchComments_skips_failed_kids (net : Network) (story : Story.t) :
  exists cs,
    fetchComments net story = loadedCommentsMsg cs /\
    (length cs <= length (Story.Kids story))%nat /\
    (forall c, c ∈ cs <->
               exists id, id ∈ Story.Kids story /\ kid net id = Some c) /\
    (Forall (fun id => is_Some (kid net id)) (Story.Kids story) ->
     Forall2 (fun id c => kid net id = Some c) (Story.Kids story) cs) /\
    (Story.Kids story = [] -> cs = []).
Proof.
  exists (omap (kid net) (Story.Kids story)).
  split; [reflexivity |]. split; [apply length_omap_le |].
  split; [intros c; apply list_elem_of_omap |]. split.
  - generalize (Story.Kids story). intros kids Hall.
    induction Hall as [| id kids [c Hc] _ IH]; [constructor |].
    cbn [omap list_omap]. rewrite Hc. by constructor.
  - by intros ->.
Qed.

(** ** The windows and the cursor, together *)

(** The comments window holds the comment cursor at every terminal
    height. The stories window holds the story cursor when the height
    is unknown or at least 8; on a terminal of 1 to 7 rows it holds no
    item at all. *)
Theorem windows_and_the_cursor (height cursor n : Z) :
  int64 height -> 0 < n <= 2 ^ 62 -> 0 <= cursor < n ->
  (0 <= (commentWindow height cursor n).1 <= cursor /\
   cursor < (commentWindow height cursor n).2 <= n) /\
  (height <= 0 \/ 8 <= height ->
   0 <= (storyWindow height cursor n).1 <= cursor /\
   cursor < (storyWindow height cursor n).2 <= n) /\
  (1 <= height <= 7 ->
   (storyWindow height cursor n).2 <= (storyWindow height cursor n).1).
Proof.
  intros Hh Hn Hc.
  split; [by apply commentWindow_contains_cursor |].
  split; [intros Hrows; by apply storyWindow_contains_cursor |].
  intros Hshort.
  destruct (storyWindow_short_terminal height cursor n Hn Hc) as [H37 H12].
  destruct (Z.le_gt_cases 3 height).
  - rewrite H37 by lia. simpl. lia.
  - rewrite H12 by lia. simpl. lia.
Qed.

(** ** The browser command *)

(** On every system but Windows [openURL] runs one program with the
    URL as its only argument: [open] on darwin, [xdg-open] on any
    other. On Windows the URL is not passed: the command is
    [cmd /c "" start] whatever the URL. *)
Theorem openURL_passes_the_url_except_on_windows (GOOS url : string) :
  (GOOS = "darwin"%string -> openURL GOOS url = ("open"%string, [url])) /\
  (GOOS <> "windows"%string -> GOOS <> "darwin"%string ->
   openURL GOOS url = ("xdg-open"%string, [url])) /\
  (GOOS <> "windows"%string -> (openURL GOOS url).2 = [url]) /\
  (GOOS = "windows"%string ->
   forall url', openURL GOOS url' = ("cmd", ["/c"; ""; "start"])%string).
Proof.
  split; [| split; [| split]].
  - intros ->. reflexivity.
  - intros Hnot Hother. apply String.eqb_neq in Hnot, Hother.
    unfold openURL. by rewrite Hnot, Hother.
  - intros Hnot. apply String.eqb_neq in Hnot. unfold openURL.
    rewrite Hnot. by destruct (String.eqb GOOS "darwin").
  - intros -> url'. reflexivity.
Qed.

(** ** The first version *)

(** The loop of the first version writes the slots of the first [MAX]
    ids when the list has that many. *)
Lemma fetchLoop_fills storyID unmarshal (k : nat) :
  forall pre : list Story.t,
    (length pre + k)%nat = Z.to_nat MAX ->
    (Z.to_nat MAX <= length storyID)%nat ->
    V1.fetchLoop storyID unmarshal (Z.of_nat (length pre)) k
                 (pre ++ replicate k Story.zero)
    = Some (pre ++ ((fun id => default Story.zero (unmarshal id))
                      <$> take k (drop (length pre) storyID))).
Proof.
  induction k as [| k IH]; intros pre Hslots Hfull.
  - done.
  - destruct (lookup_lt_is_Some_2 storyID (length pre)) as [id Hid]; [lia |].
    assert (Hidx : index storyID (Z.of_nat (length pre)) = Some id).
    { unfold index, len.
      replace (0 <=? Z.of_nat (length pre)) with true
        by (symmetry; apply Z.leb_le; lia).
      replace (Z.of_nat (length pre) <? Z.of_nat (length storyID)) with true
        by (symmetry; apply Z.ltb_lt; lia).
      by rewrite Nat2Z.id. }
    cbn [V1.fetchLoop replicate]. rewrite Hidx. cbn [mbind option_bind].
    rewrite (drop_S _ _ _ Hid). cbn [take fmap list_fmap].
    assert (Hnext : forall s : Story.t,
              Z.of_nat (length pre) + 1 = Z.of_nat (length (pre ++ [s])))
      by (intros s; rewrite length_app; simpl; lia).
    assert (Hdrop : forall s : Story.t,
              drop (S (length pre)) storyID
              = drop (length (pre ++ [s])) storyID)
      by (intros s; rewrite length_app; simpl; f_equal; lia).
    destruct (unmarshal id) as [s |]; simpl default.
    + unfold len_stories.
      replace (0 <=? Z.of_nat (length pre)) with true
        by (symmetry; apply Z.leb_le; lia).
      replace (Z.of_nat (length pre) <? MAX) with true
        by (symmetry; apply Z.ltb_lt; unfold MAX in *; lia).
      cbn [andb]. rewrite Nat2Z.id.
      rewrite insert_app_r_alt by lia. rewrite Nat.sub_diag.
      change (<[0%nat:=s]> (Story.zero :: replicate k Story.zero))
        with (s :: replicate k Story.zero).
      rewrite (Hnext s), (Hdrop s).
      replace (pre ++ s :: replicate k Story.zero)
        with ((pre ++ [s]) ++ replicate k Story.zero)
        by (by rewrite <- app_assoc).
      rewrite IH; [| rewrite length_app; simpl; lia | lia].
      by rewrite <- app_assoc.
    + rewrite (Hnext Story.zero), (Hdrop Story.zero).
      replace (pre ++ Story.zero :: replicate k Story.zero)
        with ((pre ++ [Story.zero]) ++ replicate k Story.zero)
        by (by rewrite <- app_assoc).
      rewrite IH; [| rewrite length_app; simpl; lia | lia].
      by rewrite <- app_assoc.
Qed.

(** It panics when the list ends before the loop does. *)
Lemma fetchLoop_panics storyID unmarshal (k : nat) :
  forall i stories,
    0 <= i <= len storyID -> len storyID < i + Z.of_nat k ->
    V1.fetchLoop storyID unmarshal i k stories = None.
Proof.
  induction k as [| k IH]; intros i stories Hi Hshort; [lia |].
  cbn [V1.fetchLoop]. unfold index at 1.
  destruct (Z.ltb_spec i (len storyID)) as [Hin | Hout].
  - replace (0 <=? i) with true by (symmetry; apply Z.leb_le; lia).
    cbn [andb].
    destruct (lookup_lt_is_Some_2 storyID (Z.to_nat i)) as [id Hid];
      [unfold len in Hin; lia |].
    rewrite Hid. cbn [mbind option_bind].
    destruct (unmarshal id); [case_match; [| done] |]; apply IH; lia.
  - by rewrite andb_false_r.
Qed.

(** The first version needs a full page: its fetch panics exactly when
    the ranked list has fewer than [MAX] ids, and otherwise returns the
    slots of the first [MAX] ids, a failed item leaving the zero value
    (or what was decoded of it) in its slot. *)
Theorem first_version_fetch_needs_a_full_page
  (storyID : list Z) (unmarshal : Z -> option Story.t) :
  (V1.fetchTopStories (inr storyID) unmarshal = None
   <-> len storyID < MAX) /\
  (MAX <= len storyID ->
   V1.fetchTopStories (inr storyID) unmarshal
   = Some (loadedStoriesMsg
             ((fun id => default Story.zero (unmarshal id))
                <$> take (Z.to_nat MAX) storyID))).
Proof.
  assert (Hfull : MAX <= len storyID ->
            V1.fetchTopStories (inr storyID) unmarshal
            = Some (loadedStoriesMsg
                      ((fun id => default Story.zero (unmarshal id))
                         <$> take (Z.to_nat MAX) storyID))).
  { intros Hlen. unfold V1.fetchTopStories. cbv zeta.
    pose proof (fetchLoop_fills storyID unmarshal (Z.to_nat MAX) []) as Hfill.
    cbn [length app] in Hfill. change (Z.of_nat 0) with 0 in Hfill.
    rewrite Hfill by (unfold len, MAX in *; lia). by rewrite drop_0. }
  split; [split |]; [| | exact Hfull].
  - intros Hnone. destruct (Z.lt_ge_cases (len storyID) MAX); [done |].
    by rewrite Hfull in Hnone.
  - intros Hshort. unfold V1.fetchTopStories. cbv zeta.
    rewrite fetchLoop_panics; [done | | ].
    + pose proof (len_nonneg storyID). lia.
    + unfold MAX in *. lia.
Qed.

(** Where the first version works, the second at page 0 does the same;
    over a shorter list that is not empty the first panics and the
    second loads the ids there are. [unmarshal] is taken without
    half-decoded items: [item net]. *)
Theorem second_version_fetch_extends_the_first
  (net : Network) (ids : list Z) :
  topstories net = inr ids -> len ids + MAX <= maxInt64 ->
  (MAX <= len ids ->
   fetchTopStories net 0
   = (msg ← V1.fetchTopStories (topstories net) (item net); Some (msg, 0))) /\
  (0 < len ids < MAX ->
   V1.fetchTopStories (topstories net) (item net) = None /\
   fetchTopStories net 0
   = Some (loadedStoriesMsg
             ((slotOf net <$> ids)
                ++ replicate (Z.to_nat MAX - length ids) Story.zero), 0)).
Proof.
  intros Htop Hlen.
  assert (Hzero : 0 < len ids ->
            fetchTopStories net 0
            = loadPage net ids 0 (Z.min MAX (len ids)) 0).
  { intros Hne.
    rewrite (fetchTopStories_in_range net ids 0) by (done || lia).
    by rewrite Z.mul_0_l, Z.add_0_l. }
  split.
  - intros Hfull. rewrite Hzero, Htop by int64_range.
    rewrite loadPage_contents by int64_range.
    rewrite Z.min_l, Z.sub_0_r by lia. rewrite Nat.sub_diag.
    unfold V1.fetchTopStories. cbv zeta.
    pose proof (fetchLoop_fills ids (item net) (Z.to_nat MAX) []) as Hfill.
    cbn [length app] in Hfill. change (Z.of_nat 0) with 0 in Hfill.
    rewrite Hfill by (unfold len, MAX in *; lia).
    cbn [mbind option_bind replicate]. by rewrite !drop_0, app_nil_r.
  - intros Hshort. split.
    + rewrite Htop. unfold V1.fetchTopStories. cbv zeta.
      rewrite fetchLoop_panics; [done | lia | unfold MAX in *; lia].
    + rewrite Hzero by lia. rewrite loadPage_contents by int64_range.
      rewrite Z.min_r, Z.sub_0_r by lia. rewrite drop_0.
      do 3 f_equal. unfold len. rewrite Nat2Z.id.
      by rewrite take_ge by lia.
Qed.

(** In the stories view, on every message the first version has a case
    for, [Update] of the second version does what [Update] of the first
    does, panic included, and leaves [page] and the view alone. *)
Theorem second_version_update_extends_the_first
  (m : model) (msg : Msg) (page : Z) :
  newInSecondVersion msg = false -> commentsView m = false ->
  V1.Update (forget m) msg
  = (r ← Update m msg page; Some (forget r.1.1, forgetCmd r.1.2)) /\
  (forall m' c p',
      Update m msg page = Some (m', c, p') ->
      p' = page /\ commentsView m' = false).
Proof.
  intros Hnew Hview.
  destruct msg as [Width Height | loaded | loaded | e | key |];
    try (split; [reflexivity | intros m' c p' HU; simpl in HU;
                               by simplify_eq]).
  - discriminate Hnew.
  - unfold newInSecondVersion, isKey in Hnew. cbn [existsb] in Hnew.
    repeat (apply orb_false_elim in Hnew as [? Hnew]).
    unfold V1.Update, Update, isKey. cbn [existsb].
    repeat match goal with
           | H : String.eqb key _ = false |- _ => rewrite H; clear H
           end.
    rewrite Hview. cbn [orb negb forget V1.stories V1.cursor].
    split.
    + destruct (index (stories m) (cursor m));
        repeat case_match; simplify_option_eq; reflexivity.
    + intros m' c p' HU. repeat case_match; simplify_option_eq; done.
Qed.

(** While [loading] is set the first version draws the loading screen
    and nothing else, a stored error included; once it is cleared the
    first version draws what the second draws in the stories view. *)
Theorem first_version_view (m : model) :
  commentsView m = false ->
  (loading m = true -> View_v1 (forget m) = Some V1.LoadingFrame) /\
  (loading m = false -> View_v1 (forget m) = forgetFrame <$> View m).
Proof.
  intros Hview. unfold View_v1, View, forget. simpl.
  split; intros Hload; rewrite Hload; [done |].
  rewrite Hview. destruct (err m); [done |].
  destruct (storyWindow (height m) (cursor m) (len_stories (stories m)))
    as [s e].
  by destruct (mapM _ _).
Qed.

(** In the first version, too, the URL reaches the browser on every
    system but Windows, where the command does not depend on it; under
    WSL it is the last of four arguments of [cmd.exe]. *)
Theorem first_version_openURL (GOOS : string) (isWSL : bool) (url : string) :
  (GOOS <> "windows"%string ->
   last (V1.openURL GOOS isWSL url).2 = Some url) /\
  (GOOS <> "windows"%string -> GOOS <> "darwin"%string -> isWSL = true ->
   V1.openURL GOOS isWSL url
   = ("cmd.exe", ["/c"; ""; "start"; url])%string) /\
  (GOOS = "windows"%string ->
   forall isWSL' url',
     V1.openURL GOOS isWSL' url' = ("cmd", ["/c"; ""; "start"])%string).
Proof.
  split; [| split].
  - intros Hnot. apply String.eqb_neq in Hnot. unfold V1.openURL.
    rewrite Hnot. destruct (String.eqb GOOS "darwin"); [done |].
    by destruct isWSL.
  - intros Hnot Hother ->. apply String.eqb_neq in Hnot, Hother.
    unfold V1.openURL. by rewrite Hnot, Hother.
  - intros -> isWSL' url'. reflexivity.
Qed.

End Program.

(** ** The statements at sample inputs *)

(** C2, the claim as stated fails: at cursor 10 the window of 9 rows
    over 20 items is [(6, 15)], so the three values of the claim do not
    hold together. *)
Lemma window_of_nine_at_cursor_10_is_not_5_14 :
  ~ (centerWindow 20 0 9 = (0, 9) /\
     centerWindow 20 19 9 = (11, 20) /\
     centerWindow 20 10 9 = (5, 14)).
Proof. intros (_ & _ & H). vm_compute in H. discriminate H. Qed.

(** C3, the claim as stated fails: after [c] and the completion of a
    thread without comments the program is in the comments view with an
    empty list and the comment cursor at 0, which is not inside
    [[0, 0)]. *)
Lemma comment_cursor_outside_empty_list :
  exists w,
    reachable plainText noWrap oneLine w /\
    commentsView (mdl w) = true /\
    comments (mdl w) = [] /\
    ~ (0 <= commentCursor (mdl w) < len (comments (mdl w))).
Proof.
  exists (mkWorld (set_loading false (set_commentsView true initialModel)) 0).
  split.
  - unfold reachable.
    eapply rtc_l.
    { eapply (step_update _ _ _ _ (KeyMsg "c")); [exact I | reflexivity]. }
    eapply rtc_l.
    { eapply (step_update _ _ _ _ (loadedCommentsMsg []));
        [vm_compute; discriminate | reflexivity]. }
    apply rtc_refl.
  - repeat split. vm_compute. intros [_ H]. discriminate H.
Qed.

(** C3, an instance: the world after the first page arrived, [c], the
    completion of a thread of two comments and [j]. *)
Lemma cursors_stay_in_bounds_witness :
  reachable plainText noWrap oneLine
    (mkWorld (set_commentCursor 1 threadModel) 0) /\
  cursorsInBounds (set_commentCursor 1 threadModel) /\
  (forall w',
      step plainText noWrap oneLine
        (mkWorld (set_commentCursor 1 threadModel) 0) w' ->
      cursorsInBounds (mdl w')).
Proof.
  assert (Hreach : reachable plainText noWrap oneLine
                     (mkWorld (set_commentCursor 1 threadModel) 0)).
  { unfold reachable.
    eapply rtc_l.
    { eapply (step_update _ _ _ _
                (loadedStoriesMsg (sampleStory <$> seqZ 1 MAX)));
        [reflexivity | reflexivity]. }
    eapply rtc_l.
    { eapply (step_update _ _ _ _ (KeyMsg "c")); [exact I | reflexivity]. }
    eapply rtc_l.
    { eapply (step_update _ _ _ _
                (loadedCommentsMsg [sampleComment 101; sampleComment 102]));
        [vm_compute; discriminate | reflexivity]. }
    eapply rtc_l.
    { eapply (step_update _ _ _ _ (KeyMsg "j")); [exact I | reflexivity]. }
    apply rtc_refl. }
  split; [exact Hreach |].
  exact (cursors_stay_in_bounds plainText noWrap oneLine _ Hreach).
Defined.

(** C4, the claim as stated fails twice. With 10 ids a fetch of page 1
    is past the end, [page] becomes -1 and the slice
    [storiesID[-20:0]] panics. With 30 ids the last page is page 1
    (ids 21 to 30); the next-page key there stores 2, and the fetch
    that follows loads page 0, not page 1 again. *)
Lemma request_past_end_short_or_ragged_list :
  (len (seqZ 1 10) <= Z.max 0 (mul64 1 MAX) /\
   fetchTopStories (sampleNet 10) 1 = None) /\
  (Update plainText noWrap oneLine loadedModel (KeyMsg "l") 1
   = Some (set_loading true loadedModel, fetchTopStoriesCmd, 2) /\
   fetchTopStories (sampleNet 30) 2
   = Some (loadedStoriesMsg (sampleStory <$> seqZ 1 20), 0) /\
   fetchTopStories (sampleNet 30) 1
   = Some (loadedStoriesMsg
             ((sampleStory <$> seqZ 21 10) ++ replicate 10 Story.zero), 1) /\
   fetchTopStories (sampleNet 30) 2 <> fetchTopStories (sampleNet 30) 1).
Proof.
  split; [split; [vm_compute; discriminate | reflexivity] |].
  split; [reflexivity |]. split; [reflexivity |]. split; [reflexivity |].
  vm_compute. discriminate.
Qed.

(** C4, an instance: 40 ids, a fetch of page 5, and the next-page key
    on the last page 1. *)
Lemma request_past_end_witness :
  (topstories (sampleNet 40) = inr (seqZ 1 40) /\
   MAX <= len (seqZ 1 40) /\
   len (seqZ 1 40) + MAX <= maxInt64 /\
   1 = len (seqZ 1 40) ÷ MAX - 1 /\
   len (seqZ 1 40) <= Z.max 0 (mul64 5 MAX) /\
   len (seqZ 1 40) = MAX * 2) /\
  fetchTopStories (sampleNet 40) 5 = fetchTopStories (sampleNet 40) 1 /\
  fetchTopStories (sampleNet 40) 2 = fetchTopStories (sampleNet 40) (2 - 1).
Proof.
  assert (H1 : topstories (sampleNet 40) = inr (seqZ 1 40)) by reflexivity.
  assert (H2 : MAX <= len (seqZ 1 40)) by (vm_compute; discriminate).
  assert (H3 : len (seqZ 1 40) + MAX <= maxInt64)
    by (vm_compute; discriminate).
  assert (H4 : 1 = len (seqZ 1 40) ÷ MAX - 1) by reflexivity.
  assert (H5 : len (seqZ 1 40) <= Z.max 0 (mul64 5 MAX))
    by (vm_compute; discriminate).
  assert (H6 : len (seqZ 1 40) = MAX * 2) by reflexivity.
  destruct (request_past_end_loads_last_full_page plainText noWrap oneLine
              (sampleNet 40) (seqZ 1 40) loadedModel 5 1 2 H1 H2 H3 H4)
    as [Hsnap Hnext].
  split; [repeat split; assumption |].
  split.
  - exact (proj1 (proj2 (proj2 (Hsnap H5)))).
  - exact (proj1 (proj2 (Hnext H6))).
Defined.

(** C5, the claim as stated fails: story 2 is selected when the
    comments fetched for story 1 arrive, and [Update] installs them. *)
Lemma stale_comments_completion_is_applied :
  index (stories (set_cursor 1 loadedModel))
        (cursor (set_cursor 1 loadedModel)) = Some (sampleStory 2) /\
  Story.ID (sampleStory 1) <> Story.ID (sampleStory 2) /\
  exists m',
    Update plainText noWrap oneLine (set_cursor 1 loadedModel)
           (fetchComments (sampleNet 40) (sampleStory 1)) 0
    = Some (m', nilCmd, 0) /\
    m' <> set_cursor 1 loadedModel /\
    comments (set_cursor 1 loadedModel) = [] /\
    comments m' = [sampleComment 101; sampleComment 102].
Proof.
  split; [reflexivity |]. split; [discriminate |].
  eexists. split; [reflexivity |].
  split; [intros H; vm_compute in H; discriminate H |].
  split; reflexivity.
Qed.

(** C7, an instance: the round trip from [loadedModel]. *)
Lemma toggle_comments_round_trip_witness :
  commentsView loadedModel = false /\
  exists m1 c1 p1 m2 c2 p2,
    Update plainText noWrap oneLine loadedModel (KeyMsg "c") 3
    = Some (m1, c1, p1) /\
    commentsView m1 = true /\
    Update plainText noWrap oneLine m1 (KeyMsg "c") p1
    = Some (m2, c2, p2) /\
    commentsView m2 = false /\
    cursor m2 = cursor loadedModel /\
    p2 = 3 /\
    stories m2 = stories loadedModel.
Proof.
  split; [reflexivity |].
  apply (toggle_comments_round_trip plainText noWrap oneLine loadedModel 3).
  reflexivity.
Defined.

(** C8, the claim as stated fails: leaving the comments view of
    [threadModel] keeps its two comments. *)
Lemma leave_comments_does_not_clear_list :
  commentsView threadModel = true /\
  exists m',
    Update plainText noWrap oneLine threadModel (KeyMsg "c") 0
    = Some (m', nilCmd, 0) /\
    commentsView m' = false /\
    comments m' = [sampleComment 101; sampleComment 102] /\
    comments m' <> [].
Proof.
  split; [reflexivity |]. eexists. split; [reflexivity |].
  repeat split. discriminate.
Qed.

(** C8, an instance: leaving the comments view of [threadModel]. *)
Lemma leave_comments_keeps_list_witness :
  commentsView threadModel = true /\
  Update plainText noWrap oneLine threadModel (KeyMsg "c") 0 =
  Some (mkModel (stories threadModel) (comments threadModel)
                (commentHeights threadModel) (cursor threadModel)
                (commentCursor threadModel) (loading threadModel) false
                (err threadModel) (width threadModel) (height threadModel),
        nilCmd, 0).
Proof.
  split; [reflexivity |].
  apply (leave_comments_keeps_list plainText noWrap oneLine threadModel 0).
  reflexivity.
Defined.

(** C9, the claim as stated fails twice. Over an empty list the
    fetch of page -1 raises [start] to 0, which is at the end of the
    list, re-derives page -1 and panics on the slice
    [storiesID[-20:0]]: no story is fetched. And a negative page whose
    product with 20 does not fit an [int] wraps to a large [start]:
    over 40 ids the fetch then snaps forward, loads the last page and
    stores page 1, not the first page under a negative index. *)
Lemma negative_page_empty_list_or_wrapped :
  (topstories (sampleNet 0) = inr [] /\
   fetchTopStories (sampleNet 0) (-1) = None) /\
  (-461168601842738791 < 0 /\
   mul64 (-461168601842738791) MAX = 9223372036854775796 /\
   fetchTopStories (sampleNet 40) (-461168601842738791)
   = Some (loadedStoriesMsg (sampleStory <$> seqZ 21 20), 1) /\
   fetchTopStories (sampleNet 40) 0
   = Some (loadedStoriesMsg (sampleStory <$> seqZ 1 20), 0)).
Proof.
  split; [split; reflexivity |].
  split; [reflexivity |]. repeat split; vm_compute; reflexivity.
Qed.

(** C9, an instance: the previous-page key on page 0 and the fetch of
    page -1 over 40 ids. *)
Lemma page_keys_do_not_clamp_witness :
  (int64 (-1) /\
   topstories (sampleNet 40) = inr (seqZ 1 40) /\
   0 < len (seqZ 1 40) <= maxInt64 /\
   -1 < 0 /\
   minInt64 <= -1 * MAX) /\
  Update plainText noWrap oneLine loadedModel (KeyMsg "h") 0
  = Some (mkModel (stories loadedModel) (comments loadedModel)
                  (commentHeights loadedModel) (cursor loadedModel)
                  (commentCursor loadedModel) true
                  (commentsView loadedModel) (err loadedModel)
                  (width loadedModel) (height loadedModel),
          fetchTopStoriesCmd, -1) /\
  exists stories,
    fetchTopStories (sampleNet 40) (-1)
    = Some (loadedStoriesMsg stories, -1) /\
    fetchTopStories (sampleNet 40) 0 = Some (loadedStoriesMsg stories, 0) /\
    fetchTopStories (sampleNet 40) (-1)
    = loadPage (sampleNet 40) (seqZ 1 40) 0 (Z.min MAX (len (seqZ 1 40)))
               (-1).
Proof.
  assert (H1 : int64 (-1)) by (split; vm_compute; discriminate).
  assert (H2 : topstories (sampleNet 40) = inr (seqZ 1 40)) by reflexivity.
  assert (H3 : 0 < len (seqZ 1 40) <= maxInt64)
    by (split; vm_compute; [reflexivity | discriminate]).
  assert (H5 : -1 < 0) by reflexivity.
  assert (H6 : minInt64 <= -1 * MAX) by (vm_compute; discriminate).
  destruct (page_keys_do_not_clamp plainText noWrap oneLine
              (sampleNet 40) (seqZ 1 40) loadedModel (-1) H1 H2 H3)
    as (_ & _ & Hzero & Hneg).
  split; [repeat split; try assumption; apply H3 |].
  split; [exact Hzero | exact (Hneg H5 H6)].
Defined.

(** C10, an instance: [r] in the comments view of [threadModel] and the
    arrival of the second page. *)
Lemma refresh_in_comments_view_witness :
  commentsView threadModel = true /\
  exists m1 m2,
    Update plainText noWrap oneLine threadModel (KeyMsg "r") 0
    = Some (m1, fetchTopStoriesCmd, 0) /\
    Update plainText noWrap oneLine m1
           (loadedStoriesMsg (sampleStory <$> seqZ 21 MAX)) 0
    = Some (m2, nilCmd, 0) /\
    stories m2 = sampleStory <$> seqZ 21 MAX /\
    loading m1 = true /\
    loading m2 = false /\
    commentsView m2 = true /\
    comments m2 = comments threadModel /\
    commentCursor m2 = commentCursor threadModel.
Proof.
  split; [reflexivity |].
  destruct (refresh_in_comments_view plainText noWrap oneLine threadModel
              (sampleStory <$> seqZ 21 MAX) 0 eq_refl)
    as (m1 & m2 & H1 & _ & _ & H2 & _ & H3 & H4 & H5 & _ & H6 & _ & H7
        & _ & H8 & _).
  exists m1, m2. repeat split; assumption.
Defined.

(** ** Further instances *)

(** Two reachable worlds: the first page has arrived; and then [c],
    the completion of a thread of two comments and [j]. *)
Lemma loaded_world_reachable :
  reachable plainText noWrap oneLine (mkWorld loadedModel 0).
Proof.
  unfold reachable. eapply rtc_l; [| apply rtc_refl].
  eapply (step_update _ _ _ _
            (loadedStoriesMsg (sampleStory <$> seqZ 1 MAX)));
    [reflexivity | reflexivity].
Qed.

Lemma thread_world_reachable :
  reachable plainText noWrap oneLine
    (mkWorld (set_commentCursor 1 threadModel) 0).
Proof.
  unfold reachable. etrans; [apply loaded_world_reachable |].
  eapply rtc_l.
  { eapply (step_update _ _ _ _ (KeyMsg "c")); [exact I | reflexivity]. }
  eapply rtc_l.
  { eapply (step_update _ _ _ _
              (loadedCommentsMsg [sampleComment 101; sampleComment 102]));
      [vm_compute; discriminate | reflexivity]. }
  eapply rtc_l.
  { eapply (step_update _ _ _ _ (KeyMsg "j")); [exact I | reflexivity]. }
  apply rtc_refl.
Qed.

Lemma centerWindow_is_a_clamp_witness :
  centerWindow 20 10 9
  = (Z.min (Z.max (10 - 9 ÷ 2) 0) (20 - 9),
     Z.min (Z.max (10 - 9 ÷ 2) 0) (20 - 9) + 9) /\
  (10 + 1 < 20 ->
   0 <= (centerWindow 20 (10 + 1) 9).1 - (centerWindow 20 10 9).1 <= 1).
Proof. apply (centerWindow_is_a_clamp 20 10 9); lia. Defined.

Lemma window_row_count_witness :
  (commentWindow 32 10 20).2 - (commentWindow 32 10 20).1
  = Z.min ((32 - 2) ÷ 3) 20 /\
  (storyWindow 32 10 20).2 - (storyWindow 32 10 20).1
  = Z.min ((32 - 5) ÷ 3) 20.
Proof.
  assert (Hh : int64 32) by (split; vm_compute; discriminate).
  destruct (window_row_count 32 10 20 Hh) as (Hc & _ & Hs & _); [lia | lia |].
  split; [apply Hc | apply Hs]; lia.
Defined.

Lemma View_never_panics_witness :
  len (stories loadedModel) = MAX /\ is_Some (View loadedModel).
Proof.
  split; [reflexivity |]. apply (View_never_panics loadedModel). reflexivity.
Defined.

Lemma View_comments_marks_the_cursor_witness :
  exists rows s e,
    View (set_size 80 6 (set_commentCursor 1 threadModel))
    = Some (CommentsFrame false rows) /\
    commentWindow 6 1 2 = (s, e) /\
    rows.*2 = take (Z.to_nat (e - s))
                   (drop (Z.to_nat s)
                         [sampleComment 101; sampleComment 102]) /\
    (forall j, rows.*1 !! j = Some true <-> j = Z.to_nat (1 - s)) /\
    rows.*2 !! Z.to_nat (1 - s)
    = [sampleComment 101; sampleComment 102] !! Z.to_nat 1.
Proof.
  apply (View_comments_marks_the_cursor
           (set_size 80 6 (set_commentCursor 1 threadModel)));
    [reflexivity | reflexivity | split; vm_compute; discriminate
    | split; vm_compute; [discriminate | reflexivity]
    | vm_compute; discriminate].
Defined.

Lemma View_stories_marks_the_cursor_witness :
  exists rows s e,
    View (set_size 80 32 (set_cursor 10 loadedModel))
    = Some (StoriesFrame false rows) /\
    storyWindow 32 10 MAX = (s, e) /\
    rows.*2 = take (Z.to_nat (e - s))
                   (drop (Z.to_nat s) (sampleStory <$> seqZ 1 MAX)) /\
    (forall j, rows.*1 !! j = Some true <-> j = Z.to_nat (10 - s)) /\
    rows.*2 !! Z.to_nat (10 - s)
    = (sampleStory <$> seqZ 1 MAX) !! Z.to_nat 10.
Proof.
  apply (View_stories_marks_the_cursor
           (set_size 80 32 (set_cursor 10 loadedModel)));
    [reflexivity | reflexivity | reflexivity
    | split; vm_compute; discriminate
    | right; vm_compute; discriminate
    | split; vm_compute; [discriminate | reflexivity]].
Defined.

Lemma reachable_states_are_well_formed_witness :
  len (stories (set_commentCursor 1 threadModel)) = MAX /\
  length (commentHeights (set_commentCursor 1 threadModel))
  = length (comments (set_commentCursor 1 threadModel)) /\
  int64 (width (set_commentCursor 1 threadModel)) /\
  int64 (height (set_commentCursor 1 threadModel)) /\
  int64 0.
Proof.
  exact (reachable_states_are_well_formed plainText noWrap oneLine _
           thread_world_reachable).
Defined.

Lemma Update_never_panics_when_reachable_witness :
  exists m' c p',
    Update plainText noWrap oneLine (set_commentCursor 1 threadModel)
           (KeyMsg "enter") 0 = Some (m', c, p') /\
    is_Some (View m').
Proof.
  exact (Update_never_panics_when_reachable plainText noWrap oneLine
           (mkWorld (set_commentCursor 1 threadModel) 0) (KeyMsg "enter")
           thread_world_reachable I).
Defined.

Lemma comments_command_fetches_selected_story_witness :
  exists m1 story,
    Update plainText noWrap oneLine loadedModel (KeyMsg "c") 0
    = Some (m1, fetchCommentsCmd m1, 0) /\
    stories loadedModel !! Z.to_nat (cursor loadedModel) = Some story /\
    forall net, runFetchComments net m1 = Some (fetchComments net story).
Proof.
  exact (comments_command_fetches_selected_story plainText noWrap oneLine
           (mkWorld loadedModel 0) loaded_world_reachable eq_refl).
Defined.

Lemma error_screen_is_final_witness :
  is_Some (err (set_loading false
                  (set_stories (sampleStory <$> seqZ 21 MAX) failedModel))) /\
  exists e,
    View (set_loading false
            (set_stories (sampleStory <$> seqZ 21 MAX) failedModel))
    = Some (ErrorFrame e).
Proof.
  apply (error_screen_is_final plainText noWrap oneLine
           (mkWorld failedModel 0)
           (mkWorld (set_loading false
                       (set_stories (sampleStory <$> seqZ 21 MAX)
                                    failedModel)) 0)).
  - eapply rtc_l; [| apply rtc_refl].
    eapply (step_update _ _ _ _
              (loadedStoriesMsg (sampleStory <$> seqZ 21 MAX)));
      [reflexivity | reflexivity].
  - by eexists.
Defined.


Lemma down_then_up_round_trip_witness :
  (r ← presses plainText noWrap oneLine "j" 7 (set_cursor 3 loadedModel) 0;
   presses plainText noWrap oneLine "k" 7 r.1 r.2)
  = Some (set_cursor 3 loadedModel, 0).
Proof.
  apply (down_then_up_round_trip plainText noWrap oneLine
           (set_cursor 3 loadedModel) 0 7);
    [reflexivity | vm_compute; discriminate | vm_compute; discriminate].
Defined.


Lemma fetched_page_contents_witness :
  fetchTopStories (sampleNet 30) 1
  = Some (loadedStoriesMsg
            ((slotOf (sampleNet 30)
                <$> take (Z.to_nat MAX) (drop (Z.to_nat 20) (seqZ 1 30)))
               ++ replicate
                    (Z.to_nat MAX
                     - length (take (Z.to_nat MAX)
                                    (drop (Z.to_nat 20) (seqZ 1 30))))
                    Story.zero),
          1).
Proof.
  apply (fetched_page_contents (sampleNet 30) (seqZ 1 30) 1 20);
    [reflexivity | vm_compute; discriminate | reflexivity | reflexivity].
Defined.

Lemma fetch_result_is_well_formed_witness :
  wf_msg (loadedStoriesMsg (sampleStory <$> seqZ 21 20)) /\
  ((exists e, topstories (sampleNet 40) = inl e /\
              loadedStoriesMsg (sampleStory <$> seqZ 21 20) = errMsg e /\
              1 = 5) \/
   (exists ids stories,
       topstories (sampleNet 40) = inr ids /\
       loadedStoriesMsg (sampleStory <$> seqZ 21 20)
       = loadedStoriesMsg stories /\
       len stories = MAX)).
Proof.
  apply (fetch_result_is_well_formed (sampleNet 40) 5
           (loadedStoriesMsg (sampleStory <$> seqZ 21 20)) 1).
  reflexivity.
Defined.

Lemma fetch_panics_exactly_on_short_lists_witness :
  (fetchTopStories (sampleNet 10) 1 = None
   <-> len (seqZ 1 10) < MAX /\ len (seqZ 1 10) <= Z.max 0 (mul64 1 MAX)) /\
  (seqZ 1 10 = [] -> fetchTopStories (sampleNet 10) 1 = None).
Proof.
  apply (fetch_panics_exactly_on_short_lists (sampleNet 10) (seqZ 1 10) 1);
    [reflexivity | vm_compute; discriminate].
Defined.

Lemma fetch_settles_the_page_witness :
  Z.max 0 (mul64 1 MAX) < len (seqZ 1 40) /\
  fetchTopStories (sampleNet 40) 1
  = Some (loadedStoriesMsg (sampleStory <$> seqZ 21 20), 1).
Proof.
  apply (fetch_settles_the_page (sampleNet 40) (seqZ 1 40) 5);
    [reflexivity | vm_compute; discriminate | reflexivity].
Defined.

Lemma windows_and_the_cursor_witness :
  (0 <= (commentWindow 5 3 20).1 <= 3 /\
   3 < (commentWindow 5 3 20).2 <= 20) /\
  (5 <= 0 \/ 8 <= 5 ->
   0 <= (storyWindow 5 3 20).1 <= 3 /\ 3 < (storyWindow 5 3 20).2 <= 20) /\
  (1 <= 5 <= 7 -> (storyWindow 5 3 20).2 <= (storyWindow 5 3 20).1).
Proof.
  apply (windows_and_the_cursor 5 3 20);
    [split; vm_compute; discriminate | lia | lia].
Defined.

Lemma second_version_fetch_extends_the_first_witness :
  (MAX <= len (seqZ 1 40) ->
   fetchTopStories (sampleNet 40) 0
   = (msg ← V1.fetchTopStories (topstories (sampleNet 40))
                               (item (sampleNet 40));
      Some (msg, 0))) /\
  (0 < len (seqZ 1 40) < MAX ->
   V1.fetchTopStories (topstories (sampleNet 40)) (item (sampleNet 40))
   = None /\
   fetchTopStories (sampleNet 40) 0
   = Some (loadedStoriesMsg
             ((slotOf (sampleNet 40) <$> seqZ 1 40)
                ++ replicate (Z.to_nat MAX - length (seqZ 1 40)) Story.zero),
           0)).
Proof.
  apply (second_version_fetch_extends_the_first (sampleNet 40) (seqZ 1 40));
    [reflexivity | vm_compute; discriminate].
Defined.

Lemma second_version_update_extends_the_first_witness :
  V1.Update (forget loadedModel) (KeyMsg "j")
  = (r ← Update plainText noWrap oneLine loadedModel (KeyMsg "j") 0;
     Some (forget r.1.1, forgetCmd r.1.2)) /\
  (forall m' c p',
      Update plainText noWrap oneLine loadedModel (KeyMsg "j") 0
      = Some (m', c, p') ->
      p' = 0 /\ commentsView m' = false).
Proof.
  apply (second_version_update_extends_the_first plainText noWrap oneLine
           loadedModel (KeyMsg "j") 0);
    reflexivity.
Defined.

Lemma first_version_view_witness :
  (loading loadedModel = true ->
   View_v1 (forget loadedModel) = Some V1.LoadingFrame) /\
  (loading loadedModel = false ->
   View_v1 (forget loadedModel) = forgetFrame <$> View loadedModel).
Proof. apply (first_version_view loadedModel). reflexivity. Defined.
